(** * py-analyser: a shallow embedding of [analyser.py]

    The program parses every [.py] file below a directory with Python's
    [ast] module, collects imports, function names and classes with their
    methods into a dictionary per file, and renders the dictionary of all
    files either as an indented listing on standard output or as a
    Graphviz description.

    Python strings are modelled by [string] (UTF-8 bytes), Python
    dictionaries by insertion-ordered association lists, [print] by a
    state monad over the bytes written to standard output, and Python
    exceptions by an error result in the same monad. *)

From Stdlib Require Import String Ascii List Arith Bool Lia Permutation.
From Equations Require Import Equations.
Import ListNotations.
Local Open Scope list_scope.
Local Open Scope string_scope.

Set Implicit Arguments.
Set Warnings "-register-all".

(** A loop without effects that updates a local variable. *)
Definition for_in {A S} (xs : list A) (body : A -> S -> S) (s : S) : S :=
  fold_left (fun s x => body x s) xs s.

(** ** Strings *)

Module Str.

(** The double quote character, for the f-strings that contain one. *)
Definition dquote : string := String (ascii_of_nat 34) EmptyString.

(** The line feed that [print] appends and that ['\n'.join] inserts. *)
Definition nl : string := String (ascii_of_nat 10) EmptyString.

(** [sep.join(xs)] *)
Fixpoint join (sep : string) (xs : list string) : string :=
  match xs with
  | [] => ""
  | [x] => x
  | x :: rest => x ++ sep ++ join sep rest
  end.

(** [s.replace(old, new)] for one-character [old] and [new]. *)
Fixpoint replace (old new : ascii) (s : string) : string :=
  match s with
  | EmptyString => EmptyString
  | String c rest =>
      String (if Ascii.eqb c old then new else c) (replace old new rest)
  end.

(** [s.endswith(suffix)] *)
Definition endswith (s suffix : string) : bool :=
  Nat.leb (String.length suffix) (String.length s) &&
  String.eqb
    (substring (String.length s - String.length suffix)
               (String.length suffix) s)
    suffix.

Fixpoint mem (c : ascii) (s : string) : bool :=
  match s with
  | EmptyString => false
  | String d rest => Ascii.eqb d c || mem c rest
  end.

End Str.

(** ** Insertion-ordered dictionaries

    A Python [dict] iterates in insertion order, and assigning to a key
    that is already present keeps the key's position. *)

Module Dict.

Section Dict.
Variable V : Type.

Definition t := list (string * V).

Definition empty : t := [].

(** [d.get(k)] *)
Fixpoint get (k : string) (d : t) : option V :=
  match d with
  | [] => None
  | (k', v) :: rest => if String.eqb k k' then Some v else get k rest
  end.

(** [d[k] = v] *)
Fixpoint set (k : string) (v : V) (d : t) : t :=
  match d with
  | [] => [(k, v)]
  | (k', v') :: rest =>
      if String.eqb k k' then (k', v) :: rest else (k', v') :: set k v rest
  end.

(** [d.items()] *)
Definition items (d : t) : list (string * V) := d.

Definition keys (d : t) : list string := map fst d.

(** [not d] *)
Definition is_empty (d : t) : bool :=
  match d with [] => true | _ => false end.

(** [for k, v in kvs: d[k] = v] *)
Definition assign (kvs : list (string * V)) (d : t) : t :=
  for_in kvs (fun '(k, v) => set k v) d.

End Dict.

Arguments empty {V}.

End Dict.

(** ** Syntax trees

    The node classes of Python's [ast] module that [analyze_python_file]
    tells apart.  Every other class (statements, expressions,
    [ast.Module], [ast.arguments], [ast.AsyncFunctionDef], ...) is an
    [Other] node: no [isinstance] test of the analyser holds for it. *)

Module Ast.

Record alias := Alias { alias_name : string; alias_asname : option string }.

Inductive node :=
| Import (names : list alias)
| ImportFrom (module : option string) (names : list alias) (level : nat)
| FunctionDef (name : string) (children : list node)
| ClassDef (name : string) (bases : list node) (body : list node)
           (decorator_list : list node)
| AliasNode (a : alias)
| Other (children : list node).

(** [ast.iter_child_nodes(node)]: the child nodes in field order.  For a
    class definition the fields are [bases] and [keywords] (here
    [bases]), [body], then [decorator_list] and [type_params] (here
    [decorator_list]). *)
Definition iter_child_nodes (n : node) : list node :=
  match n with
  | Import names => map AliasNode names
  | ImportFrom _ names _ => map AliasNode names
  | FunctionDef _ children => children
  | ClassDef _ bases body decorator_list => bases ++ body ++ decorator_list
  | AliasNode _ => []
  | Other children => children
  end.

Fixpoint size (n : node) : nat :=
  match n with
  | Import names => S (length names)
  | ImportFrom _ names _ => S (length names)
  | FunctionDef _ children => S (list_sum (map size children))
  | ClassDef _ bases body decorator_list =>
      S (list_sum (map size bases) + list_sum (map size body)
         + list_sum (map size decorator_list))
  | AliasNode _ => 1
  | Other children => S (list_sum (map size children))
  end.

Definition forest_size (l : list node) : nat := list_sum (map size l).

Lemma forest_size_app l1 l2 :
  forest_size (l1 ++ l2) = forest_size l1 + forest_size l2.
Proof. unfold forest_size. now rewrite map_app, list_sum_app. Qed.

Lemma forest_size_aliases names :
  forest_size (map AliasNode names) = length names.
Proof.
  unfold forest_size. induction names as [|a names IH]; simpl; [easy|].
  now rewrite IH.
Qed.

Lemma size_children n : size n = S (forest_size (iter_child_nodes n)).
Proof.
  destruct n; cbn [size iter_child_nodes];
    rewrite ?forest_size_aliases, ?forest_size_app; unfold forest_size;
    simpl; lia.
Qed.

(** [ast.walk(node)]: a queue, initially [[node]]; the front node is
    taken off, its children are put at the back, and it is yielded. *)
Equations? walk_queue (todo : list node) : list node
  by wf (forest_size todo) lt :=
  walk_queue [] := [];
  walk_queue (n :: rest) := n :: walk_queue (rest ++ iter_child_nodes n).
Proof.
  rewrite forest_size_app. unfold forest_size at 3. simpl.
  rewrite (size_children n). fold (forest_size rest). lia.
Qed.

Definition walk (n : node) : list node := walk_queue [n].

(** The nodes of a tree, parent before children and children in field
    order.  Statements lie in the source text in this order: a compound
    statement starts before the statements of its body, and the
    statements of a body follow each other. *)
Fixpoint preorder (n : node) : list node :=
  n ::
  match n with
  | Import names => map AliasNode names
  | ImportFrom _ names _ => map AliasNode names
  | FunctionDef _ children => flat_map preorder children
  | ClassDef _ bases body decorator_list =>
      flat_map preorder bases ++ flat_map preorder body
      ++ flat_map preorder decorator_list
  | AliasNode _ => []
  | Other children => flat_map preorder children
  end.

End Ast.

(** ** Standard output and exceptions

    A computation takes the bytes written to standard output so far and
    returns its result, or the exception it raises, with the bytes
    written by then: what was printed before an exception stays
    printed. *)

Module Io.

Inductive exn :=
| NameError (name : string)
| Exception (description : string).

Inductive result (A : Type) :=
| Ok (a : A)
| Raise (e : exn).
Arguments Raise {A} e.

Definition M (A : Type) := string -> result A * string.

Definition ret {A} (a : A) : M A := fun out => (Ok a, out).

Definition bind {A B} (c : M A) (k : A -> M B) : M B :=
  fun out =>
    match c out with
    | (Ok a, out') => k a out'
    | (Raise e, out') => (Raise e, out')
    end.

Definition raise {A} (e : exn) : M A := fun out => (Raise e, out).

(** [print(s)] *)
Definition print (s : string) : M unit :=
  fun out => (Ok tt, out ++ s ++ Str.nl).

(** [for x in xs: body(x)] *)
Fixpoint for_each {A} (xs : list A) (body : A -> M unit) : M unit :=
  match xs with
  | [] => ret tt
  | x :: rest => bind (body x) (fun _ => for_each rest body)
  end.

(** [for x in xs: s = body(s, x)], for a loop that updates a local [s]. *)
Fixpoint fold {A S} (xs : list A) (body : S -> A -> M S) (s : S) : M S :=
  match xs with
  | [] => ret s
  | x :: rest => bind (body s x) (fold rest body)
  end.

End Io.

Notation "x <- c ;; k" := (Io.bind c (fun x => k))
  (at level 61, c at next level, right associativity).
Notation "c ;; k" := (Io.bind c (fun _ => k))
  (at level 61, right associativity).

(** ** The analyser *)

Module Analyser.

Import Ast Io.

(** The dictionary [analyze_python_file] builds: the keys ['functions']
    and ['classes'] are always there, the key ['imports'] is there until
    [del structure['imports']] removes it. *)
Record file_structure := FileStructure {
  imports : option (list string);
  functions : list string;
  classes : Dict.t (list string)
}.

(** The [argparse] namespace that [parse_args] returns. *)
Record namespace := Namespace {
  directory : string;
  exclude_imports : bool;
  output : string;
  func_symbol : string;
  class_symbol : string
}.

(** The module-level names a function may read: [args] is bound by the
    [__main__] block only. *)
Record globals := Globals { args : option namespace }.

(** What [ast.parse(source, filename)] does. *)
Inductive parse_result :=
| Tree (tree : node)
| SyntaxError (e : string)
| ParseRaises (e : exn).

(** The file system and the Python library functions the analyser calls. *)
Record world := World {
  os_walk : string -> list (string * list string * list string);
  os_path_join : string -> string -> string;
  os_path_relpath : string -> string -> string;
  (** [open(file_path, "r")] followed by [source.read()] *)
  open_read : string -> exn + string;
  ast_parse : string -> string -> parse_result
}.

(** [str(node.module)] inside an f-string: a relative import without a
    module name has [node.module = None]. *)
Definition format_module (module : option string) : string :=
  match module with
  | Some m => m
  | None => "None"
  end.

(** [structure['imports'].append(s)] *)
Definition imports_append (s : string) (structure : file_structure)
  : file_structure :=
  {| imports := option_map (fun l => (l ++ [s])%list) (imports structure);
     functions := functions structure;
     classes := classes structure |}.

(** [structure['functions'].append(s)] *)
Definition functions_append (s : string) (structure : file_structure)
  : file_structure :=
  {| imports := imports structure;
     functions := (functions structure ++ [s])%list;
     classes := classes structure |}.

(** [structure['classes'][name] = methods] *)
Definition classes_set (name : string) (methods : list string)
  (structure : file_structure) : file_structure :=
  {| imports := imports structure;
     functions := functions structure;
     classes := Dict.set name methods (classes structure) |}.

(** [del structure['imports']] *)
Definition del_imports (structure : file_structure) : file_structure :=
  {| imports := None;
     functions := functions structure;
     classes := classes structure |}.

(** [[n.name for n in body if isinstance(n, ast.FunctionDef)]] *)
Fixpoint function_names (body : list node) : list string :=
  match body with
  | [] => []
  | FunctionDef name _ :: rest => name :: function_names rest
  | _ :: rest => function_names rest
  end.

(** The body of the loop over [ast.walk(tree)]. *)
Definition visit (exclude_imports : bool) (n : node)
  (structure : file_structure) : file_structure :=
  match n with
  | Import names =>
      if negb exclude_imports then
        for_in names
          (fun alias => imports_append ("import " ++ alias_name alias))
          structure
      else structure
  | ImportFrom module names _ =>
      if negb exclude_imports then
        imports_append
          ("from " ++ format_module module ++ " import "
           ++ Str.join ", " (map alias_name names))
          structure
      else structure
  | FunctionDef name _ => functions_append name structure
  | ClassDef name _ body _ =>
      let class_methods := function_names body in
      classes_set name class_methods structure
  | _ => structure
  end.

Definition initial_structure : file_structure :=
  {| imports := Some []; functions := []; classes := Dict.empty |}.

Section World.
Variable w : world.

Definition analyze_python_file (file_path : string) (exclude_imports : bool)
  : M file_structure :=
  let structure := initial_structure in
  match open_read w file_path with
  | inl e => raise e
  | inr source =>
      match ast_parse w source file_path with
      | ParseRaises e => raise e
      | SyntaxError e =>
          print ("Syntax error in " ++ file_path ++ ": " ++ e) ;;
          ret structure
      | Tree tree =>
          let structure :=
            for_in (walk tree) (visit exclude_imports) structure in
          let structure :=
            if exclude_imports then del_imports structure else structure in
          ret structure
      end
  end.

Definition analyze_directory (directory : string) (exclude_imports : bool)
  : M (Dict.t file_structure) :=
  let structure := Dict.empty in
  fold (os_walk w directory)
    (fun structure '(root, dirs, files) =>
       fold files
         (fun structure file =>
            if Str.endswith file ".py" then
              let rel_path :=
                os_path_relpath w (os_path_join w root file) directory in
              s <- analyze_python_file (os_path_join w root file)
                     exclude_imports ;;
              ret (Dict.set rel_path s structure)
            else ret structure)
         structure)
    structure.

End World.

(** The truth value of a list or dictionary: [False] when it is empty. *)
Definition truthy {A} (l : list A) : bool :=
  match l with
  | [] => false
  | _ :: _ => true
  end.

(** Reading the global [args]. *)
Definition load_args (g : globals) : M namespace :=
  match args g with
  | Some a => ret a
  | None => raise (NameError "args")
  end.

Definition default_func_symbol : string :=
  String (ascii_of_nat 198) (String (ascii_of_nat 146) EmptyString).

Definition default_class_symbol : string :=
  String (ascii_of_nat 226)
    (String (ascii_of_nat 132) (String (ascii_of_nat 130) EmptyString)).

Definition print_structure (g : globals) (structure : Dict.t file_structure)
  (indent func_symbol class_symbol : string) : M unit :=
  if Dict.is_empty structure then
    print "No structure to print."
  else
    for_each (Dict.items structure) (fun '(file_path, contents) =>
      print (file_path ++ ":") ;;
      match imports contents with
      | Some ((_ :: _) as imps) =>
          a <- load_args g ;;
          if negb (exclude_imports a) then
            print (indent ++ "Imports:") ;;
            for_each imps (fun imp => print (indent ++ "  - " ++ imp))
          else ret tt
      | _ => ret tt
      end ;;
      (if truthy (functions contents) then
         for_each (functions contents) (fun func =>
           print (indent ++ func_symbol ++ " " ++ func ++ "()"))
       else ret tt) ;;
      (if truthy (classes contents) then
         for_each (Dict.items (classes contents)) (fun '(cls, methods) =>
           print (indent ++ class_symbol ++ " " ++ cls) ;;
           for_each methods (fun method =>
             print (indent ++ "  - " ++ method ++ "()")))
       else ret tt) ;;
      print "").

Definition file_attrs : string :=
  "fillcolor=" ++ Str.dquote ++ "lightblue" ++ Str.dquote ++ ", shape=box".

Definition class_attrs : string :=
  "fillcolor=" ++ Str.dquote ++ "lightgreen" ++ Str.dquote
  ++ ", shape=ellipse".

Definition function_attrs : string :=
  "fillcolor=" ++ Str.dquote ++ "lightyellow" ++ Str.dquote
  ++ ", shape=note".

(** [lines.append(s)] *)
Definition append (s : string) (lines : list string) : list string :=
  (lines ++ [s])%list.

(** The list [lines] of [generate_dot] before it is joined. *)
Definition generate_dot_lines (structure : Dict.t file_structure)
  : list string :=
  let lines :=
    [ "digraph G {";
      "    rankdir=LR;";
      "    node [style=filled, fontname=" ++ Str.dquote ++ "Helvetica"
        ++ Str.dquote ++ "];";
      "    edge [arrowhead=none];" ] in
  let lines :=
    for_in (Dict.items structure) (fun '(file, content) lines =>
      let file_node_name :=
        Str.replace "/" "_" (Str.replace "." "_" file) in
      let lines :=
        append ("    " ++ file_node_name ++ " [" ++ file_attrs ++ ", label="
                ++ Str.dquote ++ file ++ Str.dquote ++ "];") lines in
      let lines :=
        for_in (functions content) (fun func lines =>
          let func_node := file_node_name ++ "_func_" ++ func in
          let lines :=
            append ("    " ++ func_node ++ " [" ++ function_attrs
                    ++ ", label=" ++ Str.dquote ++ func ++ "()"
                    ++ Str.dquote ++ "];") lines in
          append ("    " ++ file_node_name ++ " -> " ++ func_node ++ ";")
            lines) lines in
      for_in (Dict.items (classes content)) (fun '(cls, methods) lines =>
        let class_node := file_node_name ++ "_cls_" ++ cls in
        let lines :=
          append ("    " ++ class_node ++ " [" ++ class_attrs ++ ", label="
                  ++ Str.dquote ++ cls ++ Str.dquote ++ "];") lines in
        let lines :=
          append ("    " ++ file_node_name ++ " -> " ++ class_node ++ ";")
            lines in
        for_in methods (fun method lines =>
          let method_node := class_node ++ "_meth_" ++ method in
          let lines :=
            append ("    " ++ method_node ++ " [" ++ function_attrs
                    ++ ", label=" ++ Str.dquote ++ method ++ "()"
                    ++ Str.dquote ++ "];") lines in
          append ("    " ++ class_node ++ " -> " ++ method_node ++ ";")
            lines) lines) lines) lines in
  append "}" lines.

Definition generate_dot (structure : Dict.t file_structure) : string :=
  Str.join Str.nl (generate_dot_lines structure).

End Analyser.

(** ** The program *)

Module Program.
Import Ast Io Analyser.

(** The [__main__] block, for the namespace [a] that [parse_args]
    returned.  [write dot_filename dot_content] is what opening the file
    for writing and writing the text does: [None] when it succeeds, the
    exception otherwise.  The result is the file written, if any. *)
Definition main (w : world) (write : string -> string -> option exn)
  (a : namespace) : M (option (string * string)) :=
  let g := Globals (Some a) in
  module_structure <- analyze_directory w (directory a) (exclude_imports a) ;;
  if String.eqb (output a) "print" then
    print (directory a ++ "/") ;;
    print_structure g module_structure "    " (func_symbol a)
      (class_symbol a) ;;
    ret None
  else if String.eqb (output a) "dot" then
    let dot_content := generate_dot module_structure in
    let dot_filename := os_path_join w (directory a) "structure.dot" in
    match write dot_filename dot_content with
    | Some e => raise e
    | None =>
        print ("Dot file created at " ++ dot_filename) ;;
        ret (Some (dot_filename, dot_content))
    end
  else ret None.

End Program.

(** ** Views of the source functions

    What the loops of the analyser compute, written without the loops:
    the statements below are stated with these and proved of the
    functions above. *)

Module View.
Import Ast Io Analyser.

(** The strings one visited node adds to ['imports']. *)
Definition import_lines (n : node) : list string :=
  match n with
  | Import names => map (fun a => "import " ++ alias_name a) names
  | ImportFrom module names _ =>
      ["from " ++ format_module module ++ " import "
       ++ Str.join ", " (map alias_name names)]
  | _ => []
  end.

(** The class definitions among a list of nodes, each with the names of
    the function definitions directly in its body. *)
Fixpoint class_defs (ns : list node) : list (string * list string) :=
  match ns with
  | [] => []
  | ClassDef name _ body _ :: rest =>
      (name, function_names body) :: class_defs rest
  | _ :: rest => class_defs rest
  end.

(** The reading of C4 by position in the text: of the class definitions
    with one name, the one that comes last in the text determines the
    entry. *)
Definition last_in_text_wins (tree : node) (s : file_structure) : Prop :=
  forall before after c bases body decorators,
    preorder tree = (before ++ ClassDef c bases body decorators :: after)%list ->
    ~ In c (map fst (class_defs after)) ->
    Dict.get c (classes s) = Some (function_names body).

(** The [.py] files below a directory in the order [os.walk] finds them,
    each with the key it gets in the result and the path it is read
    from. *)
Definition py_files (w : world) (directory : string)
  : list (string * string) :=
  flat_map
    (fun '(root, dirs, files) =>
       flat_map
         (fun file =>
            if Str.endswith file ".py" then
              [(os_path_relpath w (os_path_join w root file) directory,
                os_path_join w root file)]
            else [])
         files)
    (os_walk w directory).

(** Whether reading or parsing a file raises something other than
    [SyntaxError]. *)
Definition raises (w : world) (file_path : string) : bool :=
  match open_read w file_path with
  | inl _ => true
  | inr source =>
      match ast_parse w source file_path with
      | ParseRaises _ => true
      | _ => false
      end
  end.

(** What [analyze_python_file] returns for a file that does not raise. *)
Definition structure_of (w : world) (exclude_imports : bool)
  (file_path : string) : file_structure :=
  match fst (analyze_python_file w file_path exclude_imports "") with
  | Ok s => s
  | Raise _ => initial_structure
  end.

(** What [analyze_python_file] prints for a file. *)
Definition diagnostic_of (w : world) (file_path : string) : string :=
  match open_read w file_path with
  | inl _ => ""
  | inr source =>
      match ast_parse w source file_path with
      | SyntaxError e =>
          ("Syntax error in " ++ file_path ++ ": " ++ e) ++ Str.nl
      | _ => ""
      end
  end.

(** The entries [analyze_directory] assigns, in order. *)
Definition entries (w : world) (directory : string) (exclude : bool)
  : list (string * file_structure) :=
  map (fun '(rel_path, file_path) => (rel_path, structure_of w exclude file_path))
      (py_files w directory).

(** A computation that ends with the result [r] after printing [text],
    whatever was printed before. *)
Definition appends {A} (c : M A) (r : result A) (text : string) : Prop :=
  forall out, c out = (r, out ++ text).

(** What [print(s)] writes. *)
Definition line (s : string) : string := s ++ Str.nl.

(** Whether the [Imports:] lines of a file are printed when
    [args.exclude_imports] is [exclude]. *)
Definition imports_shown (exclude : bool) (contents : file_structure) : bool :=
  match imports contents with
  | Some (_ :: _) => negb exclude
  | _ => false
  end.

(** The list under ['imports'], the empty list when the key is absent. *)
Definition imports_list (contents : file_structure) : list string :=
  match imports contents with
  | Some l => l
  | None => []
  end.

(** The text printed for one file. *)
Definition file_block (exclude : bool) (indent func_symbol class_symbol : string)
  (entry : string * file_structure) : string :=
  let '(file_path, contents) := entry in
  line (file_path ++ ":")
  ++ (if imports_shown exclude contents then
        line (indent ++ "Imports:")
        ++ String.concat ""
             (map (fun imp => line (indent ++ "  - " ++ imp))
                  (imports_list contents))
      else "")
  ++ String.concat ""
       (map (fun func => line (indent ++ func_symbol ++ " " ++ func ++ "()"))
            (functions contents))
  ++ String.concat ""
       (map (fun '(cls, methods) =>
               line (indent ++ class_symbol ++ " " ++ cls)
               ++ String.concat ""
                    (map (fun method => line (indent ++ "  - " ++ method ++ "()"))
                         methods))
            (classes contents))
  ++ line "".

(** The text [print_structure] prints when [args.exclude_imports] is
    [exclude]. *)
Definition render_text (exclude : bool) (structure : Dict.t file_structure)
  (indent func_symbol class_symbol : string) : string :=
  if Dict.is_empty structure then line "No structure to print."
  else String.concat ""
         (map (file_block exclude indent func_symbol class_symbol) structure).

(** The statements of the Graphviz text: a line of the frame, a node
    with its attributes and label, an edge without attributes. *)
Inductive dot_stmt :=
| Raw (s : string)
| NodeStmt (name attrs label : string)
| EdgeStmt (tail head : string).

(** The line of a statement, as the f-strings of [generate_dot] write
    it. *)
Definition show_stmt (st : dot_stmt) : string :=
  match st with
  | Raw s => s
  | NodeStmt name attrs label =>
      "    " ++ name ++ " [" ++ attrs ++ ", label=" ++ Str.dquote ++ label
      ++ Str.dquote ++ "];"
  | EdgeStmt tail head => "    " ++ tail ++ " -> " ++ head ++ ";"
  end.

(** [file.replace('.', '_').replace('/', '_')] *)
Definition file_node_name (file : string) : string :=
  Str.replace "/" "_" (Str.replace "." "_" file).

(** The four lines [lines] starts with. *)
Definition preamble : list dot_stmt :=
  [ Raw "digraph G {";
    Raw "    rankdir=LR;";
    Raw ("    node [style=filled, fontname=" ++ Str.dquote ++ "Helvetica"
         ++ Str.dquote ++ "];");
    Raw "    edge [arrowhead=none];" ].

(** The node and the edge of a method, of a class with its methods, of
    a function, and of a file with its functions and classes. *)
Definition method_stmts (class_node method : string) : list dot_stmt :=
  [ NodeStmt (class_node ++ "_meth_" ++ method) function_attrs (method ++ "()");
    EdgeStmt class_node (class_node ++ "_meth_" ++ method) ].

Definition class_stmts (file_node : string) (entry : string * list string)
  : list dot_stmt :=
  let '(cls, methods) := entry in
  let class_node := file_node ++ "_cls_" ++ cls in
  NodeStmt class_node class_attrs cls
  :: EdgeStmt file_node class_node
  :: flat_map (method_stmts class_node) methods.

Definition function_stmts (file_node func : string) : list dot_stmt :=
  [ NodeStmt (file_node ++ "_func_" ++ func) function_attrs (func ++ "()");
    EdgeStmt file_node (file_node ++ "_func_" ++ func) ].

Definition file_stmts (entry : string * file_structure) : list dot_stmt :=
  let '(file, content) := entry in
  let file_node := file_node_name file in
  (NodeStmt file_node file_attrs file
   :: flat_map (function_stmts file_node) (functions content)
   ++ flat_map (class_stmts file_node) (classes content))%list.

(** All statements, in the order of the lines. *)
Definition dot_stmts (structure : Dict.t file_structure) : list dot_stmt :=
  (preamble ++ flat_map file_stmts structure ++ [Raw "}"])%list.

(** The names of the nodes declared, and the edges, in order. *)
Fixpoint node_names (stmts : list dot_stmt) : list string :=
  match stmts with
  | [] => []
  | NodeStmt name _ _ :: rest => name :: node_names rest
  | _ :: rest => node_names rest
  end.

Fixpoint edges (stmts : list dot_stmt) : list (string * string) :=
  match stmts with
  | [] => []
  | EdgeStmt tail head :: rest => (tail, head) :: edges rest
  | _ :: rest => edges rest
  end.

(** The node names of one file's statements. *)
Definition file_node_names (entry : string * file_structure) : list string :=
  let '(file, content) := entry in
  let file_node := file_node_name file in
  let func_node func := file_node ++ "_func_" ++ func in
  let class_node cls := file_node ++ "_cls_" ++ cls in
  let method_node cls method := class_node cls ++ "_meth_" ++ method in
  (file_node
   :: map func_node (functions content)
   ++ flat_map
        (fun '(cls, methods) =>
           class_node cls :: map (method_node cls) methods)
        (classes content))%list.

(** What the two replacements do to one character. *)
Definition sanitize (c : ascii) : ascii :=
  if (Ascii.eqb c "." || Ascii.eqb c "/")%bool then "_"%char else c.

End View.

(** ** Further views *)

Module Shape.
Import Ast Io Analyser View.

(** A list of keys without the repetitions: each key stays where it
    occurs first. *)
Fixpoint first_occurrences (ks : list string) : list string :=
  match ks with
  | [] => []
  | k :: rest =>
      k :: filter (fun k' => negb (String.eqb k' k)) (first_occurrences rest)
  end.

(** Whether a file's ['imports'] is present and not empty. *)
Definition has_imports (contents : file_structure) : bool :=
  match imports contents with
  | Some (_ :: _) => true
  | _ => false
  end.


(** A file's entry without the key ['imports']. *)
Definition without_imports (entry : string * file_structure)
  : string * file_structure :=
  let '(file, content) := entry in (file, del_imports content).

(** The edges [generate_dot] draws for one file: from the file's node to
    the node of each function and of each class, and from a class's node
    to the node of each of its methods. *)
Definition file_edges (entry : string * file_structure)
  : list (string * string) :=
  let '(file, content) := entry in
  let file_node := file_node_name file in
  let func_node func := file_node ++ "_func_" ++ func in
  let class_node cls := file_node ++ "_cls_" ++ cls in
  let method_node cls method := class_node cls ++ "_meth_" ++ method in
  (map (fun func => (file_node, func_node func)) (functions content)
   ++ flat_map
        (fun '(cls, methods) =>
           (file_node, class_node cls)
           :: map (fun method => (class_node cls, method_node cls method))
                methods)
        (classes content))%list.


(** The body of the loop of [print_structure] over the files. *)
Definition file_turn (g : globals) (indent func_symbol class_symbol : string)
  (entry : string * file_structure) : M unit :=
  let '(file_path, contents) := entry in
  print (file_path ++ ":") ;;
  match imports contents with
  | Some ((_ :: _) as imps) =>
      a <- load_args g ;;
      if negb (exclude_imports a) then
        print (indent ++ "Imports:") ;;
        for_each imps (fun imp => print (indent ++ "  - " ++ imp))
      else ret tt
  | _ => ret tt
  end ;;
  (if truthy (functions contents) then
     for_each (functions contents) (fun func =>
       print (indent ++ func_symbol ++ " " ++ func ++ "()"))
   else ret tt) ;;
  (if truthy (classes contents) then
     for_each (Dict.items (classes contents)) (fun '(cls, methods) =>
       print (indent ++ class_symbol ++ " " ++ cls) ;;
       for_each methods (fun method =>
         print (indent ++ "  - " ++ method ++ "()")))
   else ret tt) ;;
  print "".

End Shape.

(** ** Example inputs *)

Module Examples.
Import Ast Io Analyser.

Definition name_only (name : string) : alias := Alias name None.

(** [arguments] of a function without parameters, of a method with the
    parameter [self], and a [pass] statement. *)
Definition no_arguments : node := Other [].
Definition self_argument : node := Other [Other []].
Definition pass : node := Other [].

(** The text of [proj/bad.py]: Python's parser rejects it. *)
Definition bad_source : string := "def (".

(** The text of [proj/nested.py]. *)
Definition nested_source : string :=
"def f():
    class C:
        def a(self): pass
class C:
    def b(self): pass
".

(** [ast.parse(nested_source)]: an [ast.Module] with two statements. *)
Definition nested_tree : node :=
  Other
    [ FunctionDef "f"
        [ no_arguments;
          ClassDef "C" [] [FunctionDef "a" [self_argument; pass]] [] ];
      ClassDef "C" [] [FunctionDef "b" [self_argument; pass]] [] ].

(** The text of [proj/pkg/mod.py]. *)
Definition mod_source : string :=
"import os, sys
from a.b import c, d
def f():
    def g(): pass
class K:
    def m1(self): pass
    def m2(self): pass
".

Definition mod_tree : node :=
  Other
    [ Import [name_only "os"; name_only "sys"];
      ImportFrom (Some "a.b") [name_only "c"; name_only "d"] 0;
      FunctionDef "f" [no_arguments; FunctionDef "g" [no_arguments; pass]];
      ClassDef "K" []
        [ FunctionDef "m1" [self_argument; pass];
          FunctionDef "m2" [self_argument; pass] ] [] ].

(** A directory [proj] with the files [bad.py], [nested.py] and
    [notes.txt] and the subdirectory [pkg] with the file [mod.py]. *)
Definition example_world : world :=
  {| os_walk := fun directory =>
       [ (directory, ["pkg"], ["bad.py"; "nested.py"; "notes.txt"]);
         (directory ++ "/pkg", [], ["mod.py"]) ];
     os_path_join := fun a b => a ++ "/" ++ b;
     os_path_relpath := fun path start =>
       substring (S (String.length start))
                 (String.length path - S (String.length start)) path;
     open_read := fun file_path =>
       if String.eqb file_path "proj/bad.py" then inr bad_source
       else if String.eqb file_path "proj/nested.py" then inr nested_source
       else if String.eqb file_path "proj/pkg/mod.py" then inr mod_source
       else inl (Exception "FileNotFoundError");
     ast_parse := fun source filename =>
       if String.eqb source bad_source then
         SyntaxError "invalid syntax (bad.py, line 1)"
       else if String.eqb source nested_source then Tree nested_tree
       else if String.eqb source mod_source then Tree mod_tree
       else ParseRaises (Exception "not an example") |}.

(** [args] as [parse_args] returns it for the command line [proj]. *)
Definition default_args : namespace :=
  {| directory := "proj";
     exclude_imports := false;
     output := "print";
     func_symbol := default_func_symbol;
     class_symbol := default_class_symbol |}.

(** [args] for the command line [proj --exclude-imports]. *)
Definition excluding_args : namespace :=
  {| directory := "proj";
     exclude_imports := true;
     output := "print";
     func_symbol := default_func_symbol;
     class_symbol := default_class_symbol |}.

End Examples.

(** ** More example inputs *)

Module Examples2.
Import Ast Io Analyser Examples.

(** The directory of [example_world] with a further file [locked.py]
    that cannot be opened, found between [bad.py] and [nested.py]. *)
Definition locked_world : world :=
  {| os_walk := fun directory =>
       [ (directory, ["pkg"], ["bad.py"; "locked.py"; "nested.py"]);
         (directory ++ "/pkg", [], ["mod.py"]) ];
     os_path_join := os_path_join example_world;
     os_path_relpath := os_path_relpath example_world;
     open_read := fun file_path =>
       if String.eqb file_path "proj/locked.py" then
         inl (Exception "PermissionError")
       else open_read example_world file_path;
     ast_parse := ast_parse example_world |}.

(** A file system on which every write succeeds. *)
Definition write_ok (file_name content : string) : option exn := None.

(** [args] for the command line [proj --output dot]. *)
Definition dot_args : namespace :=
  {| directory := "proj";
     exclude_imports := false;
     output := "dot";
     func_symbol := default_func_symbol;
     class_symbol := default_class_symbol |}.

End Examples2.

(** ** Facts about strings, dictionaries, the walk and the monad *)

Module StrFacts.

Lemma append_assoc (a b c : string) : (a ++ b) ++ c = a ++ b ++ c.
Proof. induction a as [|x a IH]; simpl; [reflexivity | now rewrite IH]. Qed.

Lemma append_nil_r (a : string) : a ++ "" = a.
Proof. induction a as [|x a IH]; simpl; [reflexivity | now rewrite IH]. Qed.

Lemma length_append (a b : string) :
  String.length (a ++ b) = String.length a + String.length b.
Proof. induction a as [|x a IH]; simpl; [reflexivity | now rewrite IH]. Qed.

Lemma append_inv_l (a b c : string) : a ++ b = a ++ c -> b = c.
Proof. induction a as [|x a IH]; simpl; [auto | intros [= H]; auto]. Qed.

End StrFacts.

Module DictFacts.
Section Facts.
Variable V : Type.
Implicit Types (d : Dict.t V) (k : string) (v : V).

Lemma get_set_same k v d : Dict.get k (Dict.set k v d) = Some v.
Proof.
  induction d as [|[k' v'] d IH]; simpl.
  - now rewrite String.eqb_refl.
  - destruct (String.eqb k k') eqn:E; simpl; now rewrite E.
Qed.

Lemma get_set_other k k' v d :
  k <> k' -> Dict.get k' (Dict.set k v d) = Dict.get k' d.
Proof.
  intros Hne. induction d as [|[k0 v0] d IH]; simpl.
  - destruct (String.eqb_spec k' k); [congruence | reflexivity].
  - destruct (String.eqb_spec k k0) as [->|Hk]; simpl.
    + destruct (String.eqb_spec k' k0); [congruence | reflexivity].
    + now destruct (String.eqb k' k0).
Qed.

Lemma in_keys_get k d : In k (Dict.keys d) <-> Dict.get k d <> None.
Proof.
  induction d as [|[k' v'] d IH]; simpl.
  - intuition congruence.
  - destruct (String.eqb_spec k k') as [->|Hk].
    + split; [discriminate | auto].
    + rewrite <- IH. intuition congruence.
Qed.

Lemma in_keys_set k k' v d :
  In k' (Dict.keys (Dict.set k v d)) <-> k' = k \/ In k' (Dict.keys d).
Proof.
  rewrite !in_keys_get. destruct (String.eqb_spec k k') as [->|Hk].
  - rewrite get_set_same. split; [auto | discriminate].
  - rewrite get_set_other by assumption. intuition congruence.
Qed.

Lemma keys_set_nodup k v d :
  NoDup (Dict.keys d) -> NoDup (Dict.keys (Dict.set k v d)).
Proof.
  induction d as [|[k' v'] d IH]; simpl; intros Hnd.
  - constructor; [intros [] | constructor].
  - inversion Hnd as [|? ? Hnotin Hnd']; subst.
    destruct (String.eqb_spec k k') as [->|Hk]; simpl.
    + now constructor.
    + constructor; [|now apply IH].
      fold (Dict.keys (Dict.set k v d)). rewrite in_keys_set.
      intros [Heq|Hin]; [congruence | contradiction].
Qed.

Lemma assign_app kvs1 kvs2 d :
  Dict.assign (kvs1 ++ kvs2) d = Dict.assign kvs2 (Dict.assign kvs1 d).
Proof. unfold Dict.assign, for_in. apply fold_left_app. Qed.

Lemma assign_nodup kvs d :
  NoDup (Dict.keys d) -> NoDup (Dict.keys (Dict.assign kvs d)).
Proof.
  revert d. induction kvs as [|[k v] kvs IH]; intros d Hnd; [exact Hnd|].
  apply (IH (Dict.set k v d)). now apply keys_set_nodup.
Qed.

Lemma get_assign_absent k kvs d :
  ~ In k (map fst kvs) -> Dict.get k (Dict.assign kvs d) = Dict.get k d.
Proof.
  revert d. induction kvs as [|[k0 v0] kvs IH]; intros d Hnot; [reflexivity|].
  change (Dict.assign ((k0, v0) :: kvs) d) with (Dict.assign kvs (Dict.set k0 v0 d)).
  simpl in Hnot. rewrite IH by tauto. apply get_set_other. tauto.
Qed.

(** Last write wins. *)
Lemma get_assign_last k v kvs1 kvs2 d :
  ~ In k (map fst kvs2) ->
  Dict.get k (Dict.assign (kvs1 ++ (k, v) :: kvs2) d) = Some v.
Proof.
  intros Hnot. rewrite assign_app.
  change (Dict.assign ((k, v) :: kvs2) (Dict.assign kvs1 d))
    with (Dict.assign kvs2 (Dict.set k v (Dict.assign kvs1 d))).
  rewrite get_assign_absent by assumption. apply get_set_same.
Qed.

Lemma in_keys_assign k kvs d :
  In k (Dict.keys (Dict.assign kvs d)) <-> In k (map fst kvs) \/ In k (Dict.keys d).
Proof.
  revert d. induction kvs as [|[k0 v0] kvs IH]; intros d.
  - simpl. tauto.
  - change (Dict.assign ((k0, v0) :: kvs) d) with (Dict.assign kvs (Dict.set k0 v0 d)).
    rewrite IH, in_keys_set. simpl. intuition congruence.
Qed.

Lemma get_assign_origin k v kvs d :
  Dict.get k (Dict.assign kvs d) = Some v -> In (k, v) kvs \/ Dict.get k d = Some v.
Proof.
  revert d. induction kvs as [|[k0 v0] kvs IH]; intros d H; [now right|].
  change (Dict.assign ((k0, v0) :: kvs) d) with (Dict.assign kvs (Dict.set k0 v0 d)) in H.
  destruct (IH _ H) as [Hin|Hget]; [left; now right|].
  destruct (String.eqb_spec k0 k) as [->|Hk].
  - rewrite get_set_same in Hget. injection Hget as ->. left. now left.
  - rewrite get_set_other in Hget by assumption. now right.
Qed.

End Facts.
End DictFacts.

Module AstFacts.
Import Ast.

Lemma walk_queue_cons n rest :
  walk_queue (n :: rest) = n :: walk_queue (rest ++ iter_child_nodes n).
Proof. now simp walk_queue. Qed.

Lemma flat_map_preorder_aliases names :
  flat_map preorder (map AliasNode names) = map AliasNode names.
Proof. induction names as [|a names IH]; simpl; [easy|]. now rewrite IH. Qed.

Lemma preorder_children n :
  preorder n = n :: flat_map preorder (iter_child_nodes n).
Proof.
  destruct n; cbn [preorder iter_child_nodes];
    rewrite ?flat_map_preorder_aliases, ?flat_map_app; reflexivity.
Qed.

(** The walk visits every node of the queued trees exactly once. *)
Lemma walk_queue_preorder todo :
  Permutation (walk_queue todo) (flat_map preorder todo).
Proof.
  funelim (walk_queue todo); simp walk_queue; [constructor|].
  cbn [flat_map]. rewrite preorder_children. cbn [app]. constructor.
  rewrite H, flat_map_app. apply Permutation_app_comm.
Qed.

Lemma walk_preorder tree : Permutation (walk tree) (preorder tree).
Proof.
  unfold walk. rewrite walk_queue_preorder. cbn [flat_map].
  now rewrite app_nil_r.
Qed.

(** Breadth first: the queued nodes come first, in queue order, then
    their children. *)
Lemma walk_queue_levels_gen done todo :
  walk_queue (todo ++ flat_map iter_child_nodes done)
  = (todo ++ walk_queue (flat_map iter_child_nodes (done ++ todo)))%list.
Proof.
  revert done. induction todo as [|n todo IH]; intros done.
  - now rewrite app_nil_r.
  - cbn [app]. rewrite walk_queue_cons. f_equal.
    rewrite <- app_assoc.
    replace (flat_map iter_child_nodes done ++ iter_child_nodes n)%list
      with (flat_map iter_child_nodes (done ++ [n])).
    + rewrite IH. now rewrite <- app_assoc.
    + rewrite flat_map_app. cbn [flat_map]. now rewrite app_nil_r.
Qed.

Lemma walk_queue_levels todo :
  walk_queue todo = (todo ++ walk_queue (flat_map iter_child_nodes todo))%list.
Proof.
  pose proof (walk_queue_levels_gen [] todo) as H. cbn [flat_map app] in H.
  now rewrite app_nil_r in H.
Qed.

End AstFacts.

Module IoFacts.
Import Io.

(** A loop whose body never raises, changes the local variable as [f]
    does and prints [t x] in turn [x], ends with the variable folded by
    [f] and all the texts printed. *)
Lemma fold_pure {A S} (xs : list A) (body : S -> A -> M S)
    (f : S -> A -> S) (t : A -> string) :
  (forall s x out, In x xs -> body s x out = (Ok (f s x), out ++ t x)) ->
  forall s out,
    fold xs body s out
    = (Ok (fold_left f xs s), out ++ String.concat "" (map t xs)).
Proof.
  induction xs as [|x xs IH]; intros Hbody s out.
  - simpl. unfold ret. now rewrite StrFacts.append_nil_r.
  - cbn [fold]. unfold bind. rewrite Hbody by now left.
    rewrite IH by (intros; apply Hbody; now right).
    cbn [fold_left map]. f_equal. rewrite StrFacts.append_assoc. f_equal.
    destruct xs; simpl; [now rewrite StrFacts.append_nil_r | reflexivity].
Qed.

Lemma for_each_pure {A} (xs : list A) (body : A -> M unit) (t : A -> string) :
  (forall x out, In x xs -> body x out = (Ok tt, out ++ t x)) ->
  forall out,
    for_each xs body out = (Ok tt, out ++ String.concat "" (map t xs)).
Proof.
  induction xs as [|x xs IH]; intros Hbody out.
  - simpl. unfold ret. now rewrite StrFacts.append_nil_r.
  - cbn [for_each]. unfold bind. rewrite Hbody by now left.
    rewrite IH by (intros; apply Hbody; now right).
    cbn [map]. f_equal. rewrite StrFacts.append_assoc. f_equal.
    destruct xs; simpl; [now rewrite StrFacts.append_nil_r | reflexivity].
Qed.

Lemma fold_flat_map {A B S} (g : A -> list B) (xs : list A)
    (body : S -> B -> M S) s out :
  fold xs (fun s x => fold (g x) body s) s out
  = fold (flat_map g xs) body s out.
Proof.
  revert s out. induction xs as [|x xs IH]; intros s out; [reflexivity|].
  cbn [fold flat_map]. unfold bind at 1.
  assert (Happ : forall l1 l2 s out,
             fold (l1 ++ l2) body s out
             = match fold l1 body s out with
               | (Ok s', out') => fold l2 body s' out'
               | (Raise e, out') => (Raise e, out')
               end).
  { induction l1 as [|b l1 IH1]; intros l2 s0 out0; [reflexivity|].
    cbn [app fold]. unfold bind. destruct (body s0 b out0) as [[s'|e] out'].
    - apply IH1.
    - reflexivity. }
  rewrite Happ. destruct (fold (g x) body s out) as [[s'|e] out'].
  - apply IH.
  - reflexivity.
Qed.

End IoFacts.

Module ParserFacts.
Import Ast Io Analyser View AstFacts.

Lemma for_in_app {A S} (xs ys : list A) (body : A -> S -> S) s :
  for_in (xs ++ ys) body s = for_in ys body (for_in xs body s).
Proof. unfold for_in. apply fold_left_app. Qed.

Lemma for_in_cons {A S} (x : A) (xs : list A) (body : A -> S -> S) s :
  for_in (x :: xs) body s = for_in xs body (body x s).
Proof. reflexivity. Qed.

(** *** What one visit changes *)

Lemma append_imports_loop (f : alias -> string) names s :
  for_in names (fun a => imports_append (f a)) s
  = {| imports := option_map (fun l => (l ++ map f names)%list) (imports s);
       functions := functions s;
       classes := classes s |}.
Proof.
  revert s. induction names as [|a names IH]; intros s.
  - destruct s as [[imps|] fs cs]; simpl; now rewrite ?app_nil_r.
  - rewrite for_in_cons, IH. destruct s as [[imps|] fs cs]; simpl;
      now rewrite <- ?app_assoc.
Qed.

Lemma functions_visit e n s :
  functions (visit e n s) = (functions s ++ function_names [n])%list.
Proof.
  destruct n; simpl; rewrite ?app_nil_r; try reflexivity;
    destruct e; simpl; rewrite ?append_imports_loop; reflexivity.
Qed.

Lemma classes_visit e n s :
  classes (visit e n s) = Dict.assign (class_defs [n]) (classes s).
Proof.
  destruct n; simpl; try reflexivity;
    destruct e; simpl; rewrite ?append_imports_loop; reflexivity.
Qed.

Lemma imports_visit n s :
  imports (visit false n s)
  = option_map (fun l => (l ++ import_lines n)%list) (imports s).
Proof.
  destruct n; simpl; rewrite ?append_imports_loop; simpl;
    try reflexivity; destruct (imports s); simpl; now rewrite ?app_nil_r.
Qed.

Lemma imports_visit_excluded n s : imports (visit true n s) = imports s.
Proof. destruct n; reflexivity. Qed.

(** *** What the loop over the walk computes *)

Lemma function_names_app l1 l2 :
  function_names (l1 ++ l2) = (function_names l1 ++ function_names l2)%list.
Proof.
  induction l1 as [|n l1 IH]; [reflexivity|].
  destruct n; simpl; now rewrite ?IH.
Qed.

Lemma class_defs_app l1 l2 :
  class_defs (l1 ++ l2) = (class_defs l1 ++ class_defs l2)%list.
Proof.
  induction l1 as [|n l1 IH]; [reflexivity|].
  destruct n; simpl; now rewrite ?IH.
Qed.

Lemma functions_loop e ns s :
  functions (for_in ns (visit e) s)
  = (functions s ++ function_names ns)%list.
Proof.
  revert s. induction ns as [|n ns IH]; intros s.
  - simpl. now rewrite app_nil_r.
  - rewrite for_in_cons, IH, functions_visit, <- app_assoc.
    now rewrite <- function_names_app.
Qed.

Lemma classes_loop e ns s :
  classes (for_in ns (visit e) s)
  = Dict.assign (class_defs ns) (classes s).
Proof.
  revert s. induction ns as [|n ns IH]; intros s; [reflexivity|].
  rewrite for_in_cons, IH, classes_visit.
  rewrite <- DictFacts.assign_app, <- class_defs_app. reflexivity.
Qed.

Lemma imports_loop ns s :
  imports (for_in ns (visit false) s)
  = option_map (fun l => (l ++ flat_map import_lines ns)%list) (imports s).
Proof.
  revert s. induction ns as [|n ns IH]; intros s.
  - unfold for_in. cbn [fold_left flat_map].
    destruct (imports s); simpl; now rewrite ?app_nil_r.
  - rewrite for_in_cons, IH, imports_visit. cbn [flat_map].
    destruct (imports s); simpl; now rewrite <- ?app_assoc.
Qed.

Lemma imports_loop_excluded ns s :
  imports (for_in ns (visit true) s) = imports s.
Proof.
  revert s. induction ns as [|n ns IH]; intros s; [reflexivity|].
  now rewrite for_in_cons, IH, imports_visit_excluded.
Qed.

(** The key ['imports'] is there as long as the loop runs, so
    [structure['imports'].append] never fails. *)
Lemma imports_key_during_loop e ns :
  imports (for_in ns (visit e) initial_structure) <> None.
Proof.
  destruct e; [now rewrite imports_loop_excluded | now rewrite imports_loop].
Qed.

(** *** The two ways [analyze_python_file] returns *)

Section Returns.
Variable w : world.
Variables (file_path source : string).
Hypothesis Hread : open_read w file_path = inr source.

Lemma analyze_parsed tree e out :
  ast_parse w source file_path = Tree tree ->
  analyze_python_file w file_path e out
  = (Ok (let s := for_in (walk tree) (visit e) initial_structure in
         if e then del_imports s else s), out).
Proof.
  intros Hparse. unfold analyze_python_file. now rewrite Hread, Hparse.
Qed.

Lemma analyze_syntax_error err e out :
  ast_parse w source file_path = SyntaxError err ->
  analyze_python_file w file_path e out
  = (Ok initial_structure,
     out ++ ("Syntax error in " ++ file_path ++ ": " ++ err) ++ Str.nl).
Proof.
  intros Hparse. unfold analyze_python_file. now rewrite Hread, Hparse.
Qed.

End Returns.

Lemma analyze_no_raise w file_path e out :
  raises w file_path = false ->
  analyze_python_file w file_path e out
  = (Ok (structure_of w e file_path), out ++ diagnostic_of w file_path).
Proof.
  unfold raises, structure_of, diagnostic_of, analyze_python_file.
  destruct (open_read w file_path) as [ex|source]; [discriminate|].
  destruct (ast_parse w source file_path) as [tree|err|ex];
    [| |discriminate]; intros _.
  - unfold ret. cbn [fst]. now rewrite StrFacts.append_nil_r.
  - reflexivity.
Qed.

End ParserFacts.

Module RenderFacts.
Import Ast Io Analyser View.

Lemma for_in_append {A B} (g : A -> list B) (xs : list A) (lines : list B) :
  for_in xs (fun x lines => (lines ++ g x)%list) lines
  = (lines ++ flat_map g xs)%list.
Proof.
  revert lines. induction xs as [|x xs IH]; intros lines.
  - simpl. now rewrite app_nil_r.
  - unfold for_in in *. cbn [fold_left flat_map]. rewrite IH.
    now rewrite <- app_assoc.
Qed.

Lemma for_in_ext {A S} (xs : list A) (f g : A -> S -> S) s :
  (forall x s, f x s = g x s) -> for_in xs f s = for_in xs g s.
Proof.
  intros H. revert s. unfold for_in.
  induction xs as [|x xs IH]; intros s; [reflexivity|].
  cbn [fold_left]. now rewrite H, IH.
Qed.

Lemma map_flat_map {A B C} (f : B -> C) (g : A -> list B) (l : list A) :
  map f (flat_map g l) = flat_map (fun x => map f (g x)) l.
Proof.
  induction l as [|x l IH]; [reflexivity|].
  cbn [flat_map]. now rewrite map_app, IH.
Qed.

Lemma generate_dot_lines_view structure :
  generate_dot_lines structure = map show_stmt (dot_stmts structure).
Proof.
  unfold generate_dot_lines, dot_stmts, append.
  rewrite !map_app. cbn [map show_stmt preamble app]. rewrite app_comm_cons.
  f_equal.
  rewrite (for_in_ext _ _
             (fun entry lines => (lines ++ map show_stmt (file_stmts entry))%list)).
  - rewrite for_in_append. cbn [app]. do 4 f_equal.
    now rewrite map_flat_map.
  - intros [file content] lines. unfold file_stmts. fold (file_node_name file).
    set (file_node := file_node_name file).
    rewrite (for_in_ext _ _
               (fun cls_entry lines =>
                  (lines ++ map show_stmt (class_stmts file_node cls_entry))%list)).
    + rewrite for_in_append.
      rewrite (for_in_ext _ _
                 (fun func lines =>
                    (lines ++ map show_stmt (function_stmts file_node func))%list)).
      * rewrite for_in_append. cbn [map]. rewrite map_app.
        rewrite <- !app_assoc. cbn [app show_stmt]. do 2 f_equal.
        f_equal; now rewrite map_flat_map.
      * intros func lines0. rewrite <- app_assoc. cbn [app map function_stmts show_stmt].
        now rewrite !StrFacts.append_assoc.
    + intros [cls methods] lines0. unfold class_stmts.
      set (class_node := file_node ++ "_cls_" ++ cls).
      rewrite (for_in_ext _ _
                 (fun method lines =>
                    (lines ++ map show_stmt (method_stmts class_node method))%list)).
      * rewrite for_in_append. rewrite <- !app_assoc. cbn [app map show_stmt].
        do 3 f_equal.
        now rewrite map_flat_map.
      * intros method lines1. rewrite <- app_assoc.
        cbn [app map method_stmts show_stmt].
        now rewrite !StrFacts.append_assoc.
Qed.

End RenderFacts.

Module TreeFacts.
Import Ast Io Analyser View AstFacts.


Lemma in_walk_preorder tree n : In n (walk tree) <-> In n (preorder tree).
Proof.
  split; apply Permutation_in;
    [ | apply Permutation_sym ]; apply walk_preorder.
Qed.



Lemma in_class_defs c ms l :
  In (c, ms) (class_defs l)
  <-> exists bases body decorators,
        In (ClassDef c bases body decorators) l /\ ms = function_names body.
Proof.
  induction l as [|n l IH].
  - simpl. split; [intros [] | intros (? & ? & ? & [] & _)].
  - destruct n; simpl; rewrite IH; split;
      try (intros (b & bd & d & H & E); exists b, bd, d; split; [now right | exact E]);
      try (intros (b & bd & d & [H|H] & E); [discriminate | now exists b, bd, d]).
    + intros [[= <- <-]|(b & bd & d & H & E)].
      * exists bases, body, decorator_list. split; [now left | reflexivity].
      * exists b, bd, d. split; [now right | exact E].
    + intros (b & bd & d & [Heq|H] & E).
      * left. injection Heq as -> _ -> _. now rewrite E.
      * right. now exists b, bd, d.
Qed.

Lemma class_names_in_defs c bases body decorators l :
  In (ClassDef c bases body decorators) l -> In c (map fst (class_defs l)).
Proof.
  intros H. apply in_map_iff. exists (c, function_names body). split; [reflexivity|].
  apply in_class_defs. now exists bases, body, decorators.
Qed.

End TreeFacts.

Module DirectoryFacts.
Import Ast Io Analyser View IoFacts ParserFacts.

Lemma fold_regroup {A B S} (g : A -> list B) (xs : list A)
    (body1 : S -> A -> M S) (body2 : S -> B -> M S) :
  (forall s x out, body1 s x out = fold (g x) body2 s out) ->
  forall s out, fold xs body1 s out = fold (flat_map g xs) body2 s out.
Proof.
  intros H s out. rewrite <- fold_flat_map. revert s out.
  induction xs as [|x xs IH]; intros s out; [reflexivity|].
  cbn [fold]. unfold bind. rewrite H.
  destruct (fold (g x) body2 s out) as [[s'|e] out']; [apply IH | reflexivity].
Qed.

(** The two nested loops of [analyze_directory] are one loop over the
    [.py] files. *)
Lemma analyze_directory_files w directory exclude out :
  analyze_directory w directory exclude out
  = fold (py_files w directory)
      (fun structure '(rel_path, file_path) =>
         s <- analyze_python_file w file_path exclude ;;
         ret (Dict.set rel_path s structure))
      Dict.empty out.
Proof.
  unfold analyze_directory, py_files. apply fold_regroup.
  intros s [[root dirs] files] out0. apply fold_regroup.
  intros s0 file out1. destruct (Str.endswith file ".py"); [|reflexivity].
  cbn [fold]. unfold bind, ret.
  now destruct (analyze_python_file w (os_path_join w root file) exclude out1)
    as [[s'|e] out'].
Qed.

Lemma analyze_directory_no_raise w directory exclude out :
  (forall rel p, In (rel, p) (py_files w directory) -> raises w p = false) ->
  analyze_directory w directory exclude out
  = (Ok (Dict.assign (entries w directory exclude) Dict.empty),
     out ++ String.concat ""
              (map (fun '(_, file_path) => diagnostic_of w file_path)
                   (py_files w directory))).
Proof.
  intros Hok. rewrite analyze_directory_files.
  rewrite (fold_pure _ _
             (fun structure '(rel_path, file_path) =>
                Dict.set rel_path (structure_of w exclude file_path) structure)
             (fun '(_, file_path) => diagnostic_of w file_path)).
  - f_equal. f_equal. unfold Dict.assign, for_in, entries.
    generalize (@Dict.empty file_structure). clear Hok.
    induction (py_files w directory) as [|[rel p] l IH]; intros d; [reflexivity|].
    cbn [fold_left map]. apply IH.
  - intros s [rel p] out0 Hin. unfold bind, ret.
    now rewrite (analyze_no_raise w p exclude out0 (Hok rel p Hin)).
Qed.

End DirectoryFacts.

Module TextFacts.
Import Ast Io Analyser View.

Lemma appends_ret {A} (a : A) : appends (ret a) (Ok a) "".
Proof. intros out. unfold ret. now rewrite StrFacts.append_nil_r. Qed.

Lemma appends_raise {A} e : appends (@raise A e) (Raise e) "".
Proof. intros out. unfold raise. now rewrite StrFacts.append_nil_r. Qed.

Lemma appends_print s : appends (print s) (Ok tt) (line s).
Proof. intros out. reflexivity. Qed.

Lemma appends_bind {A B} (c : M A) (k : A -> M B) a r t1 t2 :
  appends c (Ok a) t1 -> appends (k a) r t2 -> appends (bind c k) r (t1 ++ t2).
Proof.
  intros Hc Hk out. unfold bind. rewrite Hc, Hk.
  now rewrite StrFacts.append_assoc.
Qed.

Lemma appends_bind_raise {A B} (c : M A) (k : A -> M B) e t :
  appends c (Raise e) t -> appends (bind c k) (Raise e) t.
Proof. intros Hc out. unfold bind. now rewrite Hc. Qed.

Lemma appends_for_each {A} (xs : list A) (body : A -> M unit) (t : A -> string) :
  (forall x, In x xs -> appends (body x) (Ok tt) (t x)) ->
  appends (for_each xs body) (Ok tt) (String.concat "" (map t xs)).
Proof.
  intros H out. apply IoFacts.for_each_pure. intros x out0 Hin. now apply H.
Qed.

(** Whatever a loop does, its effect does not depend on what was printed
    before it when that holds for its body. *)
Lemma for_each_appends_some {A} (xs : list A) (body : A -> M unit) :
  (forall x, exists r t, appends (body x) r t) ->
  exists r t, appends (for_each xs body) r t.
Proof.
  intros H. induction xs as [|x xs IH].
  - exists (Ok tt), "". apply appends_ret.
  - cbn [for_each]. destruct (H x) as ([[]|e] & t1 & Hx).
    + destruct IH as (r & t2 & Hrest). exists r, (t1 ++ t2).
      now apply appends_bind with (a := tt).
    + exists (Raise e), t1. now apply appends_bind_raise.
Qed.

Lemma bind_appends_some {A B} (c : M A) (k : A -> M B) :
  (exists r t, appends c r t) ->
  (forall a, exists r t, appends (k a) r t) ->
  exists r t, appends (bind c k) r t.
Proof.
  intros ([a|e] & t1 & Hc) Hk.
  - destruct (Hk a) as (r & t2 & Ha). exists r, (t1 ++ t2).
    now apply appends_bind with (a := a).
  - exists (Raise e), t1. now apply appends_bind_raise.
Qed.

Lemma print_appends_some s : exists r t, appends (print s) r t.
Proof. exists (Ok tt), (line s). apply appends_print. Qed.

Lemma ret_appends_some {A} (a : A) : exists r t, appends (ret a) r t.
Proof. exists (Ok a), "". apply appends_ret. Qed.

Lemma load_args_appends_some g : exists r t, appends (load_args g) r t.
Proof.
  unfold load_args. destruct (args g) as [a|].
  - apply ret_appends_some.
  - exists (Raise (NameError "args")), "". apply appends_raise.
Qed.

Lemma print_structure_appends_some g structure indent fs cs :
  exists r t, appends (print_structure g structure indent fs cs) r t.
Proof.
  unfold print_structure. destruct (Dict.is_empty structure).
  - apply print_appends_some.
  - apply for_each_appends_some. intros [file_path contents].
    apply bind_appends_some; [apply print_appends_some | intros _].
    apply bind_appends_some; [|intros _].
    { destruct (imports contents) as [[|imp imps]|];
        try apply ret_appends_some.
      apply bind_appends_some; [apply load_args_appends_some | intros a].
      destruct (negb (exclude_imports a)); [|apply ret_appends_some].
      apply bind_appends_some; [apply print_appends_some | intros _].
      apply for_each_appends_some. intros imp0. apply print_appends_some. }
    apply bind_appends_some; [|intros _].
    { destruct (truthy (functions contents)); [|apply ret_appends_some].
      apply for_each_appends_some. intros func. apply print_appends_some. }
    apply bind_appends_some; [|intros _; apply print_appends_some].
    destruct (truthy (classes contents)); [|apply ret_appends_some].
    apply for_each_appends_some. intros [cls methods].
    apply bind_appends_some; [apply print_appends_some | intros _].
    apply for_each_appends_some. intros method. apply print_appends_some.
Qed.

(** With [args] bound, one file's turn of the loop prints the file's
    block. *)
Lemma print_structure_text a structure indent fs cs :
  appends (print_structure (Globals (Some a)) structure indent fs cs) (Ok tt)
          (render_text (exclude_imports a) structure indent fs cs).
Proof.
  unfold print_structure, render_text.
  destruct (Dict.is_empty structure); [apply appends_print|].
  apply appends_for_each. intros [file_path contents] _.
  unfold file_block.
  apply appends_bind with (a := tt); [apply appends_print|].
  apply appends_bind with (a := tt).
  { unfold imports_shown, imports_list.
    destruct (imports contents) as [[|imp imps]|]; try apply appends_ret.
    change (load_args (Globals (Some a))) with (ret a).
    apply (@appends_bind _ _ (ret a) _ a _ "" _ (appends_ret a)).
    destruct (negb (exclude_imports a)); [|apply appends_ret].
    apply appends_bind with (a := tt); [apply appends_print|].
    apply appends_for_each. intros imp0 _. apply appends_print. }
  apply appends_bind with (a := tt).
  { destruct (functions contents) as [|func funcs]; [apply appends_ret|].
    cbn [truthy]. apply appends_for_each. intros f _. apply appends_print. }
  apply appends_bind with (a := tt); [|apply appends_print].
  destruct (classes contents) as [|entry entries]; [apply appends_ret|].
  cbn [truthy]. apply appends_for_each. intros [cls methods] _.
  apply appends_bind with (a := tt); [apply appends_print|].
  apply appends_for_each. intros method _. apply appends_print.
Qed.

End TextFacts.

(** ** The parser and the aggregator *)

Module ParserSpec.
Import Ast Io Analyser View Examples.
Import AstFacts TreeFacts ParserFacts DirectoryFacts.

(** C1. A file whose text has a syntax error: [analyze_python_file]
    prints the diagnostic and returns the structure with no functions,
    no classes and the empty list of imports, without raising.  When no
    file of the directory raises another exception, [analyze_directory]
    returns a model that has an entry under the file's relative path, and
    that entry is the empty structure when no other file has the same
    relative path. *)
Theorem syntax_error_yields_empty_entry
    w directory exclude root dirs files file source err out :
  In (root, dirs, files) (os_walk w directory) ->
  In file files ->
  Str.endswith file ".py" = true ->
  open_read w (os_path_join w root file) = inr source ->
  ast_parse w source (os_path_join w root file) = SyntaxError err ->
  let file_path := os_path_join w root file in
  let rel_path := os_path_relpath w file_path directory in
  let empty_structure :=
    {| imports := Some []; functions := []; classes := Dict.empty |} in
  analyze_python_file w file_path exclude out
  = (Ok empty_structure,
     out ++ ("Syntax error in " ++ file_path ++ ": " ++ err) ++ Str.nl)
  /\ ((forall rel p, In (rel, p) (py_files w directory) -> raises w p = false) ->
      exists model out',
        analyze_directory w directory exclude out = (Ok model, out')
        /\ In rel_path (Dict.keys model)
        /\ ((forall p, In (rel_path, p) (py_files w directory) -> p = file_path) ->
            Dict.get rel_path model = Some empty_structure)).
Proof.
  intros Hwalk Hfile Hpy Hread Hparse file_path rel_path empty_structure.
  assert (Hstruct : structure_of w exclude file_path = empty_structure).
  { unfold structure_of.
    now rewrite (@analyze_syntax_error w file_path source Hread err exclude ""
                   Hparse). }
  assert (Hlisted : In (rel_path, file_path) (py_files w directory)).
  { unfold py_files. apply in_flat_map. exists (root, dirs, files).
    split; [assumption|]. apply in_flat_map. exists file.
    split; [assumption|]. rewrite Hpy. now left. }
  split.
  - exact (@analyze_syntax_error w file_path source Hread err exclude out
             Hparse).
  - intros Hok. eexists. eexists.
    split; [now apply analyze_directory_no_raise|].
    assert (Hkey : In rel_path
                     (Dict.keys (Dict.assign (entries w directory exclude)
                                   Dict.empty))).
    { apply DictFacts.in_keys_assign. left. unfold entries.
      rewrite map_map. apply in_map_iff. now exists (rel_path, file_path). }
    split; [exact Hkey|].
    intros Hunique. apply DictFacts.in_keys_get in Hkey.
    destruct (Dict.get rel_path
                (Dict.assign (entries w directory exclude) Dict.empty))
      as [s|] eqn:Hget; [|contradiction].
    apply DictFacts.get_assign_origin in Hget.
    destruct Hget as [Hin|Hget]; [|discriminate].
    unfold entries in Hin. apply in_map_iff in Hin.
    destruct Hin as ([rel p] & [= <- <-] & Hin).
    now rewrite (Hunique p Hin), Hstruct.
Qed.

Lemma syntax_error_yields_empty_entry_witness :
  analyze_python_file example_world "proj/bad.py" true ""
  = (Ok {| imports := Some []; functions := []; classes := Dict.empty |},
     "Syntax error in proj/bad.py: invalid syntax (bad.py, line 1)" ++ Str.nl)
  /\ exists model out',
       analyze_directory example_world "proj" true "" = (Ok model, out')
       /\ In "bad.py" (Dict.keys model)
       /\ Dict.get "bad.py" model
          = Some {| imports := Some []; functions := []; classes := Dict.empty |}.
Proof.
  destruct (@syntax_error_yields_empty_entry example_world "proj" true
              "proj" ["pkg"] ["bad.py"; "nested.py"; "notes.txt"] "bad.py"
              bad_source "invalid syntax (bad.py, line 1)" "")
    as [Hfile Hdir].
  - simpl. now left.
  - simpl. now left.
  - reflexivity.
  - reflexivity.
  - reflexivity.
  - split; [exact Hfile|].
    destruct Hdir as (model & out' & Hrun & Hkey & Hval).
    + intros rel p Hin. simpl in Hin.
      destruct Hin as [[= _ <-]|[[= _ <-]|[[= _ <-]|[]]]]; reflexivity.
    + exists model, out'. split; [exact Hrun|]. split; [exact Hkey|].
      apply Hval. intros p Hin. simpl in Hin.
      destruct Hin as [[= <-]|[[=]|[[=]|[]]]]. reflexivity.
Defined.

(** C2, at a file with a syntax error: with [exclude_imports = True] the
    early return hands back the initial structure, whose key ['imports']
    is present (bound to the empty list). *)
Theorem excluded_imports_key_kept_on_syntax_error :
  analyze_python_file example_world "proj/bad.py" true ""
  = (Ok {| imports := Some []; functions := []; classes := Dict.empty |},
     "Syntax error in proj/bad.py: invalid syntax (bad.py, line 1)" ++ Str.nl).
Proof. reflexivity. Qed.

(** For a text that parses, [exclude_imports = True] does remove the
    key. *)
Lemma excluded_imports_key_removed w file_path source tree out :
  open_read w file_path = inr source ->
  ast_parse w source file_path = Tree tree ->
  exists s,
    analyze_python_file w file_path true out = (Ok s, out)
    /\ imports s = None.
Proof.
  intros Hread Hparse. eexists.
  split; [eapply analyze_parsed; eassumption | reflexivity].
Qed.



(** C4 fails for [proj/nested.py]: the class [C] with the method [b] is
    the later one in the text, and the entry of [C] is the method list of
    the earlier class [C], which lies deeper in the tree and is therefore
    visited later. *)
Lemma later_class_in_text_does_not_win :
  class_defs (preorder nested_tree) = [("C", ["a"]); ("C", ["b"])]
  /\ exists s,
       analyze_python_file example_world "proj/nested.py" false ""
       = (Ok s, "")
       /\ classes s = [("C", ["a"])]
       /\ ~ last_in_text_wins nested_tree s.
Proof.
  split; [reflexivity|]. eexists. split; [reflexivity|].
  split; [reflexivity|]. intros Hlast.
  specialize (Hlast
    [Other
       [FunctionDef "f"
          [no_arguments;
           ClassDef "C" [] [FunctionDef "a" [self_argument; pass]] []];
        ClassDef "C" [] [FunctionDef "b" [self_argument; pass]] []];
     FunctionDef "f"
       [no_arguments;
        ClassDef "C" [] [FunctionDef "a" [self_argument; pass]] []];
     no_arguments;
     ClassDef "C" [] [FunctionDef "a" [self_argument; pass]] [];
     FunctionDef "a" [self_argument; pass];
     self_argument; Other []; pass]
    [FunctionDef "b" [self_argument; pass]; self_argument; Other []; pass]
    "C" [] [FunctionDef "b" [self_argument; pass]] []
    eq_refl).
  cbn in Hlast. assert (H : Some ["a"] = Some ["b"]) by (apply Hlast; tauto).
  discriminate H.
Qed.

(** C4, amended. For a text that parses, ['classes'] is built by
    assigning, in the order of the walk, to each class definition's name
    the names of the function definitions directly in its body, in body
    order.  Its keys are pairwise different, every class definition of
    the tree has its name among them, every entry is the method list of
    a class definition of the tree, and of the class definitions with one
    name the one the walk visits last determines the entry. *)
Theorem classes_last_visited_wins w file_path source tree exclude out :
  open_read w file_path = inr source ->
  ast_parse w source file_path = Tree tree ->
  exists s,
    analyze_python_file w file_path exclude out = (Ok s, out)
    /\ classes s = Dict.assign (class_defs (walk tree)) Dict.empty
    /\ NoDup (Dict.keys (classes s))
    /\ (forall c bases body decorators,
          In (ClassDef c bases body decorators) (preorder tree) ->
          In c (Dict.keys (classes s)))
    /\ (forall c methods,
          Dict.get c (classes s) = Some methods ->
          exists bases body decorators,
            In (ClassDef c bases body decorators) (preorder tree)
            /\ methods = function_names body)
    /\ (forall before after c bases body decorators,
          walk tree = (before ++ ClassDef c bases body decorators :: after)%list ->
          ~ In c (map fst (class_defs after)) ->
          Dict.get c (classes s) = Some (function_names body))
    /\ (forall stmts before after c bases body decorators,
          tree = Other stmts ->
          stmts = (before ++ ClassDef c bases body decorators :: after)%list ->
          ~ In c (map fst (class_defs after)) ->
          ~ In c (map fst (class_defs
                             (walk_queue (flat_map iter_child_nodes stmts)))) ->
          Dict.get c (classes s) = Some (function_names body)).
Proof.
  intros Hread Hparse. eexists.
  split; [eapply analyze_parsed; eassumption|].
  assert (Hcls : classes
                   (let s := for_in (walk tree) (visit exclude) initial_structure in
                    if exclude then del_imports s else s)
                 = Dict.assign (class_defs (walk tree)) Dict.empty).
  { cbv zeta. destruct exclude; cbn [classes del_imports];
      now rewrite classes_loop. }
  rewrite Hcls. split; [reflexivity|].
  split; [apply DictFacts.assign_nodup; constructor|].
  assert (Hlast : forall before after c bases body decorators,
             walk tree = (before ++ ClassDef c bases body decorators :: after)%list ->
             ~ In c (map fst (class_defs after)) ->
             Dict.get c (Dict.assign (class_defs (walk tree)) Dict.empty)
             = Some (function_names body)).
  { intros before after c bases body decorators Hwalk Hnone.
    rewrite Hwalk, class_defs_app. cbn [class_defs].
    now apply DictFacts.get_assign_last. }
  split; [|split; [|split; [exact Hlast|]]].
  - intros c bases body decorators Hin.
    apply DictFacts.in_keys_assign. left.
    apply class_names_in_defs with (bases := bases) (body := body)
                                   (decorators := decorators).
    now apply in_walk_preorder.
  - intros c methods Hget. apply DictFacts.get_assign_origin in Hget.
    destruct Hget as [Hin|Hget]; [|discriminate].
    apply in_class_defs in Hin.
    destruct Hin as (bases & body & decorators & Hclass & ->).
    exists bases, body, decorators. split; [|reflexivity].
    now apply in_walk_preorder.
  - intros stmts before after c bases body decorators -> -> Hafter Hbelow.
    apply Hlast with (before := Other (before ++ ClassDef c bases body decorators
                                         :: after) :: before)
                     (after := (after
                                ++ walk_queue
                                     (flat_map iter_child_nodes
                                        (before
                                         ++ ClassDef c bases body decorators
                                         :: after)))%list)
                     (bases := bases) (decorators := decorators).
    + unfold walk. rewrite walk_queue_cons. cbn [app iter_child_nodes].
      rewrite walk_queue_levels. now rewrite <- app_assoc.
    + rewrite class_defs_app, map_app, in_app_iff. tauto.
Qed.

Lemma classes_last_visited_wins_witness :
  exists s,
    analyze_python_file example_world "proj/nested.py" true "" = (Ok s, "")
    /\ classes s = [("C", ["a"])]
    /\ NoDup (Dict.keys (classes s)).
Proof.
  destruct (@classes_last_visited_wins example_world "proj/nested.py"
              nested_source nested_tree true "")
    as (s & Hrun & Hcls & Hnodup & _).
  - reflexivity.
  - reflexivity.
  - exists s. split; [exact Hrun|]. split; [|exact Hnodup].
    rewrite Hcls. reflexivity.
Defined.



End ParserSpec.

Module DotFacts.
Import Ast Io Analyser View.

Lemma node_names_app l1 l2 :
  node_names (l1 ++ l2) = (node_names l1 ++ node_names l2)%list.
Proof.
  induction l1 as [|st l1 IH]; [reflexivity|].
  destruct st; simpl; now rewrite IH.
Qed.

Lemma edges_app l1 l2 : edges (l1 ++ l2) = (edges l1 ++ edges l2)%list.
Proof.
  induction l1 as [|st l1 IH]; [reflexivity|].
  destruct st; simpl; now rewrite IH.
Qed.

Lemma node_names_flat_map {A} (g : A -> list dot_stmt) (l : list A) :
  node_names (flat_map g l) = flat_map (fun x => node_names (g x)) l.
Proof.
  induction l as [|x l IH]; [reflexivity|].
  cbn [flat_map]. now rewrite node_names_app, IH.
Qed.

Lemma node_names_methods class_node methods :
  node_names (flat_map (method_stmts class_node) methods)
  = map (fun method => class_node ++ "_meth_" ++ method) methods.
Proof.
  induction methods as [|m methods IH]; [reflexivity|].
  cbn [flat_map map method_stmts app node_names]. now rewrite IH.
Qed.

Lemma node_names_functions file_node funcs :
  node_names (flat_map (function_stmts file_node) funcs)
  = map (fun func => file_node ++ "_func_" ++ func) funcs.
Proof.
  induction funcs as [|f funcs IH]; [reflexivity|].
  cbn [flat_map map function_stmts app node_names]. now rewrite IH.
Qed.

Lemma node_names_file entry :
  node_names (file_stmts entry) = file_node_names entry.
Proof.
  destruct entry as [file content]. unfold file_stmts, file_node_names.
  cbn [node_names]. f_equal.
  rewrite node_names_app, node_names_functions. f_equal.
  rewrite node_names_flat_map. apply flat_map_ext. intros [cls methods].
  cbn [class_stmts node_names]. now rewrite node_names_methods.
Qed.

(** *** The name of a file node *)

Lemma sanitize_replace c :
  (if Ascii.eqb (if Ascii.eqb c "." then "_"%char else c) "/"
   then "_"%char else (if Ascii.eqb c "." then "_"%char else c))
  = sanitize c.
Proof.
  unfold sanitize.
  destruct (Ascii.eqb_spec c ".") as [->|Hdot]; [reflexivity|].
  now destruct (Ascii.eqb c "/").
Qed.

Lemma file_node_name_cons c file :
  file_node_name (String c file) = String (sanitize c) (file_node_name file).
Proof.
  unfold file_node_name. cbn [Str.replace]. now rewrite sanitize_replace.
Qed.

Lemma file_node_name_length file :
  String.length (file_node_name file) = String.length file.
Proof.
  induction file as [|c file IH]; [reflexivity|].
  rewrite file_node_name_cons. simpl. now rewrite IH.
Qed.

Lemma file_node_name_get file i :
  String.get i (file_node_name file) = option_map sanitize (String.get i file).
Proof.
  revert i. induction file as [|c file IH]; intros i; [reflexivity|].
  rewrite file_node_name_cons. destruct i as [|i]; [reflexivity|].
  simpl. apply IH.
Qed.

Lemma sanitize_safe c :
  Ascii.eqb (sanitize c) "." = false /\ Ascii.eqb (sanitize c) "/" = false.
Proof.
  unfold sanitize.
  destruct (Ascii.eqb c ".") eqn:Hdot; [now split|].
  destruct (Ascii.eqb c "/") eqn:Hslash; [now split|].
  simpl. now split.
Qed.

Lemma file_node_name_safe file :
  Str.mem "." (file_node_name file) = false
  /\ Str.mem "/" (file_node_name file) = false.
Proof.
  induction file as [|c file [IHdot IHslash]]; [now split|].
  rewrite file_node_name_cons. cbn [Str.mem].
  destruct (sanitize_safe c) as [-> ->]. now split.
Qed.

(** *** Node names that differ *)

Lemma append_longer (a b : string) : b <> "" -> a <> a ++ b.
Proof.
  intros Hb Heq. apply (f_equal String.length) in Heq.
  rewrite StrFacts.length_append in Heq. destruct b; [congruence|].
  simpl in Heq. lia.
Qed.

Lemma four_names_differ file_node func cls method :
  NoDup [ file_node;
          file_node ++ "_func_" ++ func;
          file_node ++ "_cls_" ++ cls;
          (file_node ++ "_cls_" ++ cls) ++ "_meth_" ++ method ].
Proof.
  repeat constructor; simpl.
  - intros [H|[H|[H|[]]]].
    + symmetry in H. revert H. now apply append_longer.
    + symmetry in H. revert H. now apply append_longer.
    + rewrite StrFacts.append_assoc in H. symmetry in H. revert H.
      now apply append_longer.
  - intros [H|[H|[]]].
    + apply StrFacts.append_inv_l in H. discriminate H.
    + rewrite StrFacts.append_assoc in H.
      apply StrFacts.append_inv_l in H. discriminate H.
  - intros [H|[]]. symmetry in H. revert H. now apply append_longer.
  - intros [].
Qed.

End DotFacts.

(** ** The renderers *)

Module RendererSpec.
Import Ast Io Analyser View Examples.
Import TextFacts RenderFacts DotFacts.

(** C5 fails twice.  A file whose ['imports'] is present and empty gets
    no [Imports:] line although imports are not excluded; and with the
    same model and the same arguments the [Imports:] lines are printed or
    not according to the global [args], which is no argument of
    [print_structure]. *)
Lemma imports_header_not_by_presence_and_arguments :
  (let contents :=
     {| imports := Some []; functions := []; classes := Dict.empty |} in
   imports contents <> None
   /\ exclude_imports default_args = false
   /\ print_structure (Globals (Some default_args)) [("a.py", contents)]
        "    " "def" "class" ""
      = (Ok tt, line "a.py:" ++ line ""))
  /\ (let contents :=
        {| imports := Some ["import os"]; functions := [];
           classes := Dict.empty |} in
      print_structure (Globals (Some default_args)) [("a.py", contents)]
        "    " "def" "class" ""
      = (Ok tt,
         line "a.py:" ++ line "    Imports:" ++ line "      - import os"
         ++ line "")
      /\ print_structure (Globals (Some excluding_args)) [("a.py", contents)]
           "    " "def" "class" ""
         = (Ok tt, line "a.py:" ++ line "")).
Proof.
  split; [split; [discriminate | split; reflexivity] | split; reflexivity].
Qed.

(** C5, amended.  With the global [args] bound, [print_structure] prints
    for every file its path, then the [Imports:] line and one bulleted
    line for each import exactly when ['imports'] is present and not
    empty and [args.exclude_imports] is false, then the functions, the
    classes with their methods and an empty line.  The decision depends
    on the model and on the global [args]. *)
Theorem imports_header_follows_global_args a structure indent fs cs out :
  print_structure (Globals (Some a)) structure indent fs cs out
  = (Ok tt, out ++ render_text (exclude_imports a) structure indent fs cs)
  /\ (forall contents,
        imports_shown (exclude_imports a) contents = true
        <-> (exists imp imps, imports contents = Some (imp :: imps))
            /\ exclude_imports a = false).
Proof.
  split; [apply print_structure_text|].
  intros contents. unfold imports_shown.
  destruct (imports contents) as [[|imp imps]|].
  - split; [discriminate | intros [(? & ? & [=]) _]].
  - destruct (exclude_imports a); simpl; split; try discriminate.
    + intros [_ [=]].
    + intros _. split; [now exists imp, imps | reflexivity].
    + reflexivity.
  - split; [discriminate | intros [(? & ? & [=]) _]].
Qed.

(** C10. For the model without files, [print_structure] prints the line
    [No structure to print.] and nothing else, and returns. *)
Theorem empty_model_prints_notice g indent fs cs out :
  print_structure g Dict.empty indent fs cs out
  = (Ok tt, out ++ "No structure to print." ++ Str.nl).
Proof. reflexivity. Qed.

(** C9. Rendering a model again gives the same bytes: a second call of
    [print_structure] with the same arguments and the same global [args]
    appends to standard output the text the first call appended and ends
    the same way, and [generate_dot] is a function of the model's entries
    in their order. *)
Theorem rendering_twice_gives_the_same g structure indent fs cs out :
  (exists r text,
     print_structure g structure indent fs cs out = (r, out ++ text)
     /\ print_structure g structure indent fs cs (out ++ text)
        = (r, (out ++ text) ++ text))
  /\ (forall structure',
        Dict.items structure' = Dict.items structure ->
        generate_dot structure' = generate_dot structure).
Proof.
  split.
  - destruct (print_structure_appends_some g structure indent fs cs)
      as (r & text & H).
    exists r, text. split; apply H.
  - intros structure' Heq. unfold Dict.items in Heq. now rewrite Heq.
Qed.

(** C6. For a model with one file whose structure has one function and
    one class with one method, [generate_dot] gives the four lines of the
    preamble, whose last sets [arrowhead=none] for all edges, four node
    statements with pairwise different names (file, function, class,
    method), three edge statements without attributes (file to function,
    file to class, class to method) and the closing brace. *)
Theorem one_file_graph file imps func cls method :
  let structure :=
    [(file, {| imports := imps; functions := [func];
               classes := [(cls, [method])] |})] in
  let file_node := file_node_name file in
  let func_node := file_node ++ "_func_" ++ func in
  let class_node := file_node ++ "_cls_" ++ cls in
  let method_node := class_node ++ "_meth_" ++ method in
  let stmts :=
    [ Raw "digraph G {";
      Raw "    rankdir=LR;";
      Raw ("    node [style=filled, fontname=" ++ Str.dquote ++ "Helvetica"
           ++ Str.dquote ++ "];");
      Raw "    edge [arrowhead=none];";
      NodeStmt file_node file_attrs file;
      NodeStmt func_node function_attrs (func ++ "()");
      EdgeStmt file_node func_node;
      NodeStmt class_node class_attrs cls;
      EdgeStmt file_node class_node;
      NodeStmt method_node function_attrs (method ++ "()");
      EdgeStmt class_node method_node;
      Raw "}" ] in
  generate_dot structure = Str.join Str.nl (map show_stmt stmts)
  /\ node_names stmts = [file_node; func_node; class_node; method_node]
  /\ length (node_names stmts) = 4
  /\ NoDup (node_names stmts)
  /\ edges stmts
     = [(file_node, func_node); (file_node, class_node);
        (class_node, method_node)]
  /\ length (edges stmts) = 3
  /\ (forall tail head,
        In (tail, head) (edges stmts) ->
        In (("    " ++ tail ++ " -> " ++ head ++ ";")%string)
           (generate_dot_lines structure)).
Proof.
  intros structure file_node func_node class_node method_node stmts.
  assert (Hlines : generate_dot_lines structure = map show_stmt stmts)
    by apply generate_dot_lines_view.
  split; [unfold generate_dot; now rewrite Hlines|].
  split; [reflexivity|]. split; [reflexivity|].
  split; [apply four_names_differ|].
  split; [reflexivity|]. split; [reflexivity|].
  intros tail head Hin. rewrite Hlines.
  change (("    " ++ tail ++ " -> " ++ head ++ ";")%string)
    with (show_stmt (EdgeStmt tail head)).
  apply in_map. cbn in Hin.
  destruct Hin as [[= <- <-]|[[= <- <-]|[[= <- <-]|[]]]]; cbn; tauto.
Qed.

(** C8. The statements [generate_dot] joins are those of [dot_stmts].
    Their node names are, file by file: the file's path with every ['.']
    and every ['/'] replaced by ['_'] (same length, the other characters
    kept, no ['.'] or ['/'] left); for each function the file node's name,
    [_func_] and the function's name; for each class the file node's
    name, [_cls_] and the class's name; for each method the class node's
    name, [_meth_] and the method's name. *)
Theorem node_identifiers structure :
  generate_dot structure = Str.join Str.nl (map show_stmt (dot_stmts structure))
  /\ node_names (dot_stmts structure) = flat_map file_node_names structure
  /\ (forall file,
        file_node_name file = Str.replace "/" "_" (Str.replace "." "_" file)
        /\ String.length (file_node_name file) = String.length file
        /\ (forall i,
              String.get i (file_node_name file)
              = option_map sanitize (String.get i file))
        /\ Str.mem "." (file_node_name file) = false
        /\ Str.mem "/" (file_node_name file) = false).
Proof.
  split; [unfold generate_dot; now rewrite generate_dot_lines_view|].
  split.
  - unfold dot_stmts. rewrite !node_names_app, node_names_flat_map.
    cbn [preamble node_names app]. rewrite app_nil_r.
    apply flat_map_ext. intros entry. apply node_names_file.
  - intros file. split; [reflexivity|].
    split; [apply file_node_name_length|].
    split; [apply file_node_name_get | apply file_node_name_safe].
Qed.

End RendererSpec.

(** ** Further facts *)

Module MoreDictFacts.
Section Facts.
Variable V : Type.
Implicit Types (d : Dict.t V) (k : string) (v : V).

Lemma set_fresh k v d :
  ~ In k (Dict.keys d) -> Dict.set k v d = (d ++ [(k, v)])%list.
Proof.
  induction d as [|[k' v'] d IH]; simpl; intros Hfresh; [reflexivity|].
  destruct (String.eqb_spec k k') as [->|Hk]; [tauto|].
  rewrite IH by tauto. reflexivity.
Qed.

Lemma keys_set_present k v d :
  In k (Dict.keys d) -> Dict.keys (Dict.set k v d) = Dict.keys d.
Proof.
  induction d as [|[k' v'] d IH]; simpl; intros Hin; [contradiction|].
  destruct (String.eqb_spec k k') as [->|Hk]; [reflexivity|].
  simpl. f_equal. apply IH. destruct Hin; [congruence | assumption].
Qed.

(** Assigning pairs with pairwise different keys to the empty dictionary
    gives the pairs. *)
Lemma assign_fresh (kvs : list (string * V)) :
  NoDup (map fst kvs) -> Dict.assign kvs Dict.empty = kvs.
Proof.
  induction kvs as [|[k v] kvs IH] using rev_ind; intros Hnd; [reflexivity|].
  rewrite DictFacts.assign_app. rewrite map_app in Hnd.
  apply NoDup_remove in Hnd. cbn [map fst app] in Hnd.
  rewrite app_nil_r in Hnd. destruct Hnd as [Hnd Hfresh].
  rewrite IH by assumption. apply set_fresh. exact Hfresh.
Qed.

Lemma in_set_origin k v k' v' d :
  In (k', v') (Dict.set k v d) -> (k', v') = (k, v) \/ In (k', v') d.
Proof.
  induction d as [|[k0 v0] d IH]; simpl.
  - intros [H|[]]. left. now symmetry.
  - destruct (String.eqb_spec k k0) as [->|Hk]; simpl.
    + intros [H|H]; [left; now symmetry | right; now right].
    + intros [H|H]; [right; now left|].
      destruct (IH H) as [Heq|Hin]; [now left | right; now right].
Qed.

Lemma in_assign_origin k v (kvs : list (string * V)) d :
  In (k, v) (Dict.assign kvs d) -> In (k, v) kvs \/ In (k, v) d.
Proof.
  revert d. induction kvs as [|[k0 v0] kvs IH]; intros d H; [now right|].
  change (Dict.assign ((k0, v0) :: kvs) d)
    with (Dict.assign kvs (Dict.set k0 v0 d)) in H.
  destruct (IH _ H) as [Hin|Hin]; [left; now right|].
  apply in_set_origin in Hin. destruct Hin as [Heq|Hin].
  - left. left. now symmetry.
  - now right.
Qed.

Lemma filter_filter {A} (f g : A -> bool) (l : list A) :
  filter f (filter g l) = filter (fun x => g x && f x) l.
Proof.
  induction l as [|x l IH]; [reflexivity|].
  simpl. destruct (g x); simpl; [destruct (f x)|]; now rewrite IH.
Qed.

Lemma existsb_eqb_in k (ks : list string) :
  existsb (String.eqb k) ks = true <-> In k ks.
Proof.
  rewrite existsb_exists. split.
  - intros (k' & Hin & Heq). apply String.eqb_eq in Heq. now subst.
  - intros Hin. exists k. split; [assumption | apply String.eqb_refl].
Qed.

(** The keys after a sequence of assignments: the old keys, then the new
    ones in the order of their first assignment. *)
Lemma keys_assign (kvs : list (string * V)) d :
  Dict.keys (Dict.assign kvs d)
  = (Dict.keys d
     ++ filter (fun k => negb (existsb (String.eqb k) (Dict.keys d)))
          (Shape.first_occurrences (map fst kvs)))%list.
Proof.
  revert d. induction kvs as [|[k v] kvs IH]; intros d.
  - simpl. now rewrite app_nil_r.
  - change (Dict.assign ((k, v) :: kvs) d)
      with (Dict.assign kvs (Dict.set k v d)).
    rewrite IH. cbn [map fst Shape.first_occurrences filter].
    destruct (existsb (String.eqb k) (Dict.keys d)) eqn:Hk.
    + apply existsb_eqb_in in Hk. rewrite keys_set_present by assumption.
      cbn [negb]. f_equal. rewrite filter_filter. apply filter_ext_in.
      intros k' _. destruct (String.eqb_spec k' k) as [->|Hne];
        [|reflexivity].
      apply existsb_eqb_in in Hk. now rewrite Hk.
    + assert (Hfresh : ~ In k (Dict.keys d)).
      { intros Hin. apply existsb_eqb_in in Hin. congruence. }
      rewrite set_fresh by assumption. unfold Dict.keys at 1 2.
      rewrite map_app. fold (Dict.keys d). cbn [map fst negb].
      rewrite <- app_assoc. cbn [app]. do 2 f_equal.
      rewrite filter_filter. apply filter_ext. intros k'.
      rewrite existsb_app. cbn [existsb]. rewrite orb_false_r.
      rewrite negb_orb. apply andb_comm.
Qed.

End Facts.
End MoreDictFacts.

Module MoreStrFacts.

Lemma substring_all (s : string) : substring 0 (String.length s) s = s.
Proof. induction s as [|c s IH]; simpl; [reflexivity | now rewrite IH]. Qed.

Lemma substring_skip (p s : string) n :
  substring (String.length p) n (p ++ s) = substring 0 n s.
Proof. induction p as [|c p IH]; simpl; [reflexivity | exact IH]. Qed.

Lemma substring_split (s : string) n :
  n <= String.length s ->
  s = substring 0 n s ++ substring n (String.length s - n) s.
Proof.
  revert n. induction s as [|c s IH]; intros n Hn.
  - destruct n; reflexivity.
  - destruct n as [|n].
    + cbn [substring append]. rewrite Nat.sub_0_r.
      change (String c s = substring 0 (String.length (String c s)) (String c s)).
      now rewrite substring_all.
    + simpl in Hn. cbn [substring append String.length Nat.sub].
      f_equal. apply IH. lia.
Qed.

(** [s.endswith(suffix)] holds exactly for the strings that are some
    prefix followed by [suffix]. *)
Lemma endswith_iff (s suffix : string) :
  Str.endswith s suffix = true <-> exists prefix, s = prefix ++ suffix.
Proof.
  unfold Str.endswith. split.
  - intros H. apply andb_true_iff in H. destruct H as [Hlen Heq].
    apply Nat.leb_le in Hlen. apply String.eqb_eq in Heq.
    exists (substring 0 (String.length s - String.length suffix) s).
    assert (Hle : String.length s - String.length suffix <= String.length s)
      by lia.
    pose proof (substring_split s Hle) as Hsplit.
    replace (String.length s - (String.length s - String.length suffix))
      with (String.length suffix) in Hsplit by lia.
    now rewrite Heq in Hsplit.
  - intros [prefix ->]. rewrite StrFacts.length_append.
    apply andb_true_iff. split; [apply Nat.leb_le; lia|].
    replace (String.length prefix + String.length suffix
             - String.length suffix) with (String.length prefix) by lia.
    rewrite substring_skip, substring_all. apply String.eqb_refl.
Qed.

End MoreStrFacts.

Module MoreIoFacts.
Import Io.

Lemma fold_app {A S} (l1 l2 : list A) (body : S -> A -> M S) s out :
  fold (l1 ++ l2) body s out
  = match fold l1 body s out with
    | (Ok s', out') => fold l2 body s' out'
    | (Raise e, out') => (Raise e, out')
    end.
Proof.
  revert s out. induction l1 as [|x l1 IH]; intros s out; [reflexivity|].
  cbn [app fold]. unfold bind. destruct (body s x out) as [[s'|e] out'].
  - apply IH.
  - reflexivity.
Qed.

Lemma for_each_app {A} (l1 l2 : list A) (body : A -> M unit) out :
  for_each (l1 ++ l2) body out
  = bind (for_each l1 body) (fun _ => for_each l2 body) out.
Proof.
  revert out. induction l1 as [|x l1 IH]; intros out; [reflexivity|].
  cbn [app for_each]. unfold bind at 1 2 3.
  destruct (body x out) as [[[]|e] out']; [|reflexivity].
  rewrite IH. reflexivity.
Qed.

End MoreIoFacts.

(** ** Further properties of the parser and the aggregator *)

Module ParserMore.
Import Ast Io Analyser View Shape Examples Examples2.
Import AstFacts TreeFacts ParserFacts DirectoryFacts.

(** X1. The flag [exclude_imports] changes the key ['imports'] only:
    with and without it [analyze_python_file] returns the same functions
    and classes and prints the same, or raises the same exception. *)
Theorem exclusion_changes_imports_only w file_path out :
  match analyze_python_file w file_path true out,
        analyze_python_file w file_path false out with
  | (Ok s1, out1), (Ok s2, out2) =>
      functions s1 = functions s2 /\ classes s1 = classes s2 /\ out1 = out2
  | (Raise e1, out1), (Raise e2, out2) => e1 = e2 /\ out1 = out2
  | _, _ => False
  end.
Proof.
  unfold analyze_python_file.
  destruct (open_read w file_path) as [e|source]; [now split|].
  destruct (ast_parse w source file_path) as [tree|err|e].
  - unfold ret. cbn [functions classes del_imports].
    rewrite !functions_loop, !classes_loop. now repeat split.
  - cbn. now repeat split.
  - now split.
Qed.

Lemma analyze_raises w file_path exclude :
  raises w file_path = true ->
  exists e, forall out,
    analyze_python_file w file_path exclude out = (Raise e, out).
Proof.
  unfold raises, analyze_python_file.
  destruct (open_read w file_path) as [e|source]; [now exists e|].
  destruct (ast_parse w source file_path) as [tree|err|e];
    [discriminate | discriminate | now exists e].
Qed.

(** X2. A file that cannot be read, or whose parsing raises something
    other than [SyntaxError], ends [analyze_directory] with that
    exception: no model is returned, and only the diagnostics of the
    files found before it are printed. *)
Theorem unreadable_file_aborts
    w directory exclude before rel file_path after out :
  py_files w directory = (before ++ (rel, file_path) :: after)%list ->
  (forall rel' p, In (rel', p) before -> raises w p = false) ->
  raises w file_path = true ->
  exists e,
    analyze_python_file w file_path exclude "" = (Raise e, "")
    /\ analyze_directory w directory exclude out
       = (Raise e,
          out ++ String.concat ""
                   (map (fun '(_, p) => diagnostic_of w p) before)).
Proof.
  intros Hfiles Hbefore Hraise.
  destruct (analyze_raises w file_path exclude Hraise) as [e He].
  exists e. split; [apply He|].
  rewrite analyze_directory_files, Hfiles, MoreIoFacts.fold_app.
  rewrite (IoFacts.fold_pure _ _
             (fun structure '(rel_path, p) =>
                Dict.set rel_path (structure_of w exclude p) structure)
             (fun '(_, p) => diagnostic_of w p)).
  - cbn [fold]. unfold bind. now rewrite He.
  - intros s [rel' p] out0 Hin. unfold bind, ret.
    now rewrite (analyze_no_raise w p exclude out0 (Hbefore rel' p Hin)).
Qed.

Lemma unreadable_file_aborts_witness :
  analyze_directory locked_world "proj" false ""
  = (Raise (Exception "PermissionError"),
     "Syntax error in proj/bad.py: invalid syntax (bad.py, line 1)"
     ++ Str.nl).
Proof.
  destruct (@unreadable_file_aborts locked_world "proj" false
              [("bad.py", "proj/bad.py")] "locked.py" "proj/locked.py"
              [("nested.py", "proj/nested.py");
               ("pkg/mod.py", "proj/pkg/mod.py")] "")
    as (e & Hfile & Hdir).
  - reflexivity.
  - intros rel' p [[= _ <-]|[]]. reflexivity.
  - reflexivity.
  - injection Hfile as <-. exact Hdir.
Defined.

(** X3. When no file raises and the [.py] files have pairwise different
    relative paths, the model [analyze_directory] returns has exactly one
    entry for each [.py] file, in the order [os.walk] finds them, and
    nothing for the other files; what is printed is the diagnostic of
    each file with a syntax error, in that order. *)
Theorem one_entry_per_python_file w directory exclude out :
  (forall rel p, In (rel, p) (py_files w directory) -> raises w p = false) ->
  NoDup (map fst (py_files w directory)) ->
  analyze_directory w directory exclude out
  = (Ok (map (fun '(rel_path, file_path) =>
                (rel_path, structure_of w exclude file_path))
             (py_files w directory)),
     out ++ String.concat ""
              (map (fun '(_, file_path) => diagnostic_of w file_path)
                   (py_files w directory))).
Proof.
  intros Hok Hnd. rewrite analyze_directory_no_raise by assumption.
  f_equal. f_equal. apply MoreDictFacts.assign_fresh.
  unfold entries. rewrite map_map.
  erewrite map_ext; [exact Hnd|]. now intros [rel p].
Qed.

Lemma one_entry_per_python_file_witness :
  exists model,
    analyze_directory example_world "proj" false ""
    = (Ok model,
       "Syntax error in proj/bad.py: invalid syntax (bad.py, line 1)"
       ++ Str.nl)
    /\ Dict.keys model = ["bad.py"; "nested.py"; "pkg/mod.py"].
Proof.
  eexists. split.
  - apply (@one_entry_per_python_file example_world "proj" false "").
    + intros rel p Hin. simpl in Hin.
      destruct Hin as [[= _ <-]|[[= _ <-]|[[= _ <-]|[]]]]; reflexivity.
    + simpl. repeat constructor; simpl; intuition discriminate.
  - reflexivity.
Defined.

(** X4. When no file raises, the files that get an entry are exactly
    those whose name ends with [.py]: the keys of the model are the
    relative paths of the files named some stem followed by [.py]
    (the empty stem too, lower case only). *)
Theorem python_files_are_analysed w directory exclude out :
  (forall rel p, In (rel, p) (py_files w directory) -> raises w p = false) ->
  exists model out',
    analyze_directory w directory exclude out = (Ok model, out')
    /\ forall rel,
         In rel (Dict.keys model)
         <-> exists root dirs files stem,
               In (root, dirs, files) (os_walk w directory)
               /\ In (stem ++ ".py") files
               /\ rel = os_path_relpath w
                          (os_path_join w root (stem ++ ".py")) directory.
Proof.
  intros Hok. eexists. eexists.
  split; [now apply analyze_directory_no_raise|].
  intros rel. rewrite DictFacts.in_keys_assign. unfold entries.
  rewrite map_map. split.
  - intros [Hin|[]]. apply in_map_iff in Hin.
    destruct Hin as ([rel' p] & Heq & Hin). cbn in Heq. subst rel'.
    unfold py_files in Hin. apply in_flat_map in Hin.
    destruct Hin as ([[root dirs] files] & Hwalk & Hin).
    apply in_flat_map in Hin. destruct Hin as (file & Hfile & Hin).
    destruct (Str.endswith file ".py") eqn:Hpy; [|contradiction].
    destruct Hin as [[= <- _]|[]].
    apply MoreStrFacts.endswith_iff in Hpy. destruct Hpy as [stem ->].
    now exists root, dirs, files, stem.
  - intros (root & dirs & files & stem & Hwalk & Hfile & ->). left.
    apply in_map_iff.
    exists (os_path_relpath w (os_path_join w root (stem ++ ".py")) directory,
            os_path_join w root (stem ++ ".py")).
    split; [reflexivity|]. unfold py_files. apply in_flat_map.
    exists (root, dirs, files). split; [assumption|].
    apply in_flat_map. exists (stem ++ ".py"). split; [assumption|].
    assert (Hpy : Str.endswith (stem ++ ".py") ".py" = true)
      by (apply MoreStrFacts.endswith_iff; now exists stem).
    rewrite Hpy. now left.
Qed.

Lemma python_files_are_analysed_witness :
  exists model out',
    analyze_directory example_world "proj" true "" = (Ok model, out')
    /\ In "pkg/mod.py" (Dict.keys model)
    /\ ~ In "notes.txt" (Dict.keys model).
Proof.
  destruct (@python_files_are_analysed example_world "proj" true "")
    as (model & out' & Hrun & Hkeys).
  - intros rel p Hin. simpl in Hin.
    destruct Hin as [[= _ <-]|[[= _ <-]|[[= _ <-]|[]]]]; reflexivity.
  - exists model, out'. split; [exact Hrun|].
    revert Hrun. intros [= <- _]. split; simpl; intuition discriminate.
Defined.

(** X5. The classes are listed in the order in which the walk first
    meets their names: a class defined again keeps the place of the
    first definition. *)
Theorem classes_keep_first_position w file_path source tree exclude out :
  open_read w file_path = inr source ->
  ast_parse w source file_path = Tree tree ->
  exists s,
    analyze_python_file w file_path exclude out = (Ok s, out)
    /\ Dict.keys (classes s)
       = first_occurrences (map fst (class_defs (walk tree))).
Proof.
  intros Hread Hparse. eexists.
  split; [eapply analyze_parsed; eassumption|].
  assert (Hcls : classes
                   (let s := for_in (walk tree) (visit exclude) initial_structure in
                    if exclude then del_imports s else s)
                 = Dict.assign (class_defs (walk tree)) Dict.empty).
  { cbv zeta. destruct exclude; cbn [classes del_imports];
      now rewrite classes_loop. }
  rewrite Hcls, MoreDictFacts.keys_assign. cbn [Dict.keys Dict.empty map app].
  cbn [existsb negb]. induction (first_occurrences _) as [|k ks IH];
    [reflexivity|]. cbn [filter]. now rewrite IH.
Qed.

Lemma classes_keep_first_position_witness :
  exists s,
    analyze_python_file example_world "proj/nested.py" false "" = (Ok s, "")
    /\ Dict.keys (classes s) = ["C"].
Proof.
  destruct (@classes_keep_first_position example_world "proj/nested.py"
              nested_source nested_tree false "")
    as (s & Hrun & Hkeys).
  - reflexivity.
  - reflexivity.
  - exists s. split; [exact Hrun|]. rewrite Hkeys. reflexivity.
Defined.

(** X6. The walk is breadth first, so for a module the functions and the
    imports at the top level come first, in the order of the text, and
    those inside functions and classes follow. *)
Theorem top_level_comes_first w file_path source stmts out :
  open_read w file_path = inr source ->
  ast_parse w source file_path = Tree (Other stmts) ->
  exists s,
    analyze_python_file w file_path false out = (Ok s, out)
    /\ functions s
       = (function_names stmts
          ++ function_names
               (walk_queue (flat_map iter_child_nodes stmts)))%list
    /\ imports s
       = Some (flat_map import_lines stmts
               ++ flat_map import_lines
                    (walk_queue (flat_map iter_child_nodes stmts)))%list.
Proof.
  intros Hread Hparse. eexists.
  split; [eapply analyze_parsed; eassumption|].
  cbv beta zeta iota.
  assert (Hwalk : walk (Other stmts)
                  = (Other stmts
                     :: stmts
                     ++ walk_queue (flat_map iter_child_nodes stmts))%list).
  { unfold walk. rewrite walk_queue_cons. cbn [app iter_child_nodes].
    now rewrite walk_queue_levels at 1. }
  rewrite functions_loop, imports_loop, Hwalk.
  cbn [function_names flat_map import_lines app initial_structure functions
       imports option_map].
  now rewrite function_names_app, flat_map_app.
Qed.

Lemma top_level_comes_first_witness :
  exists s,
    analyze_python_file example_world "proj/pkg/mod.py" false "" = (Ok s, "")
    /\ functions s = ["f"; "g"; "m1"; "m2"].
Proof.
  destruct (@top_level_comes_first example_world "proj/pkg/mod.py"
              mod_source
              [ Import [name_only "os"; name_only "sys"];
                ImportFrom (Some "a.b") [name_only "c"; name_only "d"] 0;
                FunctionDef "f"
                  [no_arguments; FunctionDef "g" [no_arguments; pass]];
                ClassDef "K" []
                  [ FunctionDef "m1" [self_argument; pass];
                    FunctionDef "m2" [self_argument; pass] ] [] ] "")
    as (s & Hrun & Hfun & _).
  - reflexivity.
  - reflexivity.
  - exists s. split; [exact Hrun|]. rewrite Hfun. reflexivity.
Defined.

End ParserMore.

(** ** Further properties of the text renderer and of the program *)

Module TextMore.
Import Ast Io Analyser View Shape Program Examples Examples2.
Import TextFacts ParserFacts DirectoryFacts.

Lemma print_structure_loop g structure indent fs cs :
  print_structure g structure indent fs cs
  = if Dict.is_empty structure then print "No structure to print."
    else for_each structure (file_turn g indent fs cs).
Proof. reflexivity. Qed.

Lemma file_block_without_imports e indent fs cs file_path contents :
  has_imports contents = false ->
  file_block e indent fs cs (file_path, contents)
  = file_block false indent fs cs (file_path, contents).
Proof.
  unfold has_imports, file_block, imports_shown.
  now destruct (imports contents) as [[|imp imps]|].
Qed.

(** A file without imports to print has its turn without [args] being
    read. *)
Lemma file_turn_without_imports g indent fs cs file_path contents :
  has_imports contents = false ->
  appends (file_turn g indent fs cs (file_path, contents)) (Ok tt)
          (file_block false indent fs cs (file_path, contents)).
Proof.
  intros Hno. unfold file_turn, file_block, imports_shown.
  unfold has_imports in Hno.
  apply appends_bind with (a := tt); [apply appends_print|].
  apply appends_bind with (a := tt).
  { destruct (imports contents) as [[|imp imps]|];
      [apply appends_ret | discriminate | apply appends_ret]. }
  apply appends_bind with (a := tt).
  { destruct (functions contents) as [|func funcs]; [apply appends_ret|].
    cbn [truthy]. apply appends_for_each. intros f _. apply appends_print. }
  apply appends_bind with (a := tt); [|apply appends_print].
  destruct (classes contents) as [|entry entries]; [apply appends_ret|].
  cbn [truthy]. apply appends_for_each. intros [cls methods] _.
  apply appends_bind with (a := tt); [apply appends_print|].
  apply appends_for_each. intros method _. apply appends_print.
Qed.

(** X7. A model in which no file has imports to print is rendered
    without the global [args]: [print_structure] succeeds even when
    [args] is not bound, and prints the same whatever [args] says. *)
Theorem no_imports_no_global g e structure indent fs cs out :
  (forall file_path contents,
     In (file_path, contents) structure -> has_imports contents = false) ->
  print_structure g structure indent fs cs out
  = (Ok tt, out ++ render_text e structure indent fs cs).
Proof.
  intros Hno. rewrite print_structure_loop. unfold render_text.
  destruct (Dict.is_empty structure); [apply appends_print|].
  apply appends_for_each. intros [file_path contents] Hin.
  rewrite file_block_without_imports by exact (Hno _ _ Hin).
  apply file_turn_without_imports. exact (Hno _ _ Hin).
Qed.

Lemma no_imports_no_global_witness :
  print_structure (Globals None)
    [("bad.py", initial_structure);
     ("nested.py",
      {| imports := None; functions := ["f"; "b"; "a"];
         classes := [("C", ["a"])] |})]
    "  " "def" "class" ""
  = (Ok tt,
     line "bad.py:" ++ line ""
     ++ line "nested.py:" ++ line "  def f()" ++ line "  def b()"
     ++ line "  def a()" ++ line "  class C" ++ line "    - a()" ++ line "").
Proof.
  apply (@no_imports_no_global (Globals None) true).
  intros file_path contents [[= _ <-]|[[= _ <-]|[]]]; reflexivity.
Defined.

(** X8. With [args] not bound, [print_structure] raises [NameError] at
    the first file that has imports to print, after the blocks of the
    files before it and the line with the file's path. *)
Theorem unbound_args_raise_at_first_imports
    before file_path contents after indent fs cs out :
  (forall p u, In (p, u) before -> has_imports u = false) ->
  has_imports contents = true ->
  print_structure (Globals None)
    (before ++ (file_path, contents) :: after)%list indent fs cs out
  = (Raise (NameError "args"),
     out ++ String.concat "" (map (file_block false indent fs cs) before)
     ++ line (file_path ++ ":")).
Proof.
  intros Hbefore Hhas. rewrite print_structure_loop.
  replace (Dict.is_empty (before ++ (file_path, contents) :: after)%list)
    with false by now destruct before.
  rewrite MoreIoFacts.for_each_app.
  apply appends_bind with (a := tt).
  - apply appends_for_each. intros [p u] Hin.
    apply file_turn_without_imports. exact (Hbefore _ _ Hin).
  - cbn [for_each]. apply appends_bind_raise. unfold file_turn.
    rewrite <- (StrFacts.append_nil_r (line (file_path ++ ":"))).
    apply appends_bind with (a := tt); [apply appends_print|].
    apply appends_bind_raise. unfold has_imports in Hhas.
    destruct (imports contents) as [[|imp imps]|]; try discriminate.
    apply appends_bind_raise. apply appends_raise.
Qed.

Lemma unbound_args_raise_at_first_imports_witness :
  print_structure (Globals None)
    [("bad.py", initial_structure);
     ("mod.py",
      {| imports := Some ["import os"]; functions := []; classes := [] |});
     ("last.py", initial_structure)]
    "" "def" "class" ""
  = (Raise (NameError "args"),
     line "bad.py:" ++ line "" ++ line "mod.py:").
Proof.
  apply (@unbound_args_raise_at_first_imports
           [("bad.py", initial_structure)] "mod.py"
           {| imports := Some ["import os"]; functions := [];
              classes := [] |}
           [("last.py", initial_structure)] "" "def" "class" "").
  - intros p u [[= _ <-]|[]]. reflexivity.
  - reflexivity.
Defined.

(** X9. Rendering two models one after the other prints what rendering
    the model with the entries of both prints, when neither is empty. *)
Theorem text_of_joined_models g m1 m2 indent fs cs out :
  m1 <> [] ->
  m2 <> [] ->
  print_structure g (m1 ++ m2)%list indent fs cs out
  = (print_structure g m1 indent fs cs ;;
     print_structure g m2 indent fs cs) out.
Proof.
  intros H1 H2. rewrite !print_structure_loop.
  destruct m1 as [|x1 m1]; [contradiction|].
  destruct m2 as [|x2 m2]; [contradiction|].
  cbn [Dict.is_empty app]. apply (MoreIoFacts.for_each_app (x1 :: m1)).
Qed.

Lemma text_of_joined_models_witness :
  print_structure (Globals (Some default_args))
    ([("a.py", initial_structure)] ++ [("b.py", initial_structure)])%list
    "" "def" "class" ""
  = (Ok tt, line "a.py:" ++ line "" ++ line "b.py:" ++ line "").
Proof.
  rewrite (@text_of_joined_models (Globals (Some default_args))
             [("a.py", initial_structure)] [("b.py", initial_structure)]
             "" "def" "class" "").
  - reflexivity.
  - discriminate.
  - discriminate.
Defined.

(** X18. With [args.exclude_imports] true no import is printed, whatever
    the model holds: the output is that for the model with the key
    ['imports'] removed from every file. *)
Theorem exclusion_hides_imports a structure indent fs cs out :
  exclude_imports a = true ->
  print_structure (Globals (Some a)) structure indent fs cs out
  = print_structure (Globals (Some a)) (map without_imports structure)
      indent fs cs out.
Proof.
  intros Hex. rewrite !print_structure_text, Hex. do 2 f_equal.
  unfold render_text. destruct structure as [|entry structure];
    [reflexivity|].
  cbn [Dict.is_empty map]. f_equal. rewrite map_map.
  change (map (file_block true indent fs cs) (entry :: structure)
          = map (fun x => file_block true indent fs cs (without_imports x))
              (entry :: structure)).
  apply map_ext. intros [file_path contents].
  unfold file_block, imports_shown, without_imports, del_imports.
  cbn [imports functions classes negb].
  now destruct (imports contents) as [[|imp imps]|].
Qed.

Lemma exclusion_hides_imports_witness :
  print_structure (Globals (Some excluding_args))
    [("mod.py",
      {| imports := Some ["import os"]; functions := ["f"]; classes := [] |})]
    "  " "def" "class" ""
  = (Ok tt, line "mod.py:" ++ line "  def f()" ++ line "").
Proof.
  rewrite (@exclusion_hides_imports excluding_args).
  - reflexivity.
  - reflexivity.
Defined.

End TextMore.

Module ProgramMore.
Import Ast Io Analyser View Shape Program Examples Examples2.
Import TextFacts ParserFacts DirectoryFacts.

Lemma structure_of_excluded w file_path :
  has_imports (structure_of w true file_path) = false.
Proof.
  unfold structure_of, analyze_python_file.
  destruct (open_read w file_path) as [e|source]; [reflexivity|].
  now destruct (ast_parse w source file_path).
Qed.

(** X10. A model built with [exclude_imports = True] has no imports to
    print in any file: the key is absent, or bound to the empty list for
    a file with a syntax error. *)
Theorem excluded_models_have_no_imports w directory out :
  (forall rel p, In (rel, p) (py_files w directory) -> raises w p = false) ->
  exists model out',
    analyze_directory w directory true out = (Ok model, out')
    /\ forall file_path contents,
         In (file_path, contents) model ->
         has_imports contents = false
         /\ (imports contents = None \/ imports contents = Some []).
Proof.
  intros Hok. eexists. eexists.
  split; [now apply analyze_directory_no_raise|].
  intros file_path contents Hin.
  apply MoreDictFacts.in_assign_origin in Hin. destruct Hin as [Hin|[]].
  unfold entries in Hin. apply in_map_iff in Hin.
  destruct Hin as ([rel p] & [= _ <-] & _).
  pose proof (structure_of_excluded w p) as Hno. split; [exact Hno|].
  unfold has_imports in Hno.
  destruct (imports (structure_of w true p)) as [[|imp imps]|];
    [now right | discriminate | now left].
Qed.

Lemma excluded_models_have_no_imports_witness :
  exists model out',
    analyze_directory example_world "proj" true "" = (Ok model, out')
    /\ forall file_path contents,
         In (file_path, contents) model -> has_imports contents = false.
Proof.
  destruct (@excluded_models_have_no_imports example_world "proj" "")
    as (model & out' & Hrun & Hno).
  - intros rel p Hin. simpl in Hin.
    destruct Hin as [[= _ <-]|[[= _ <-]|[[= _ <-]|[]]]]; reflexivity.
  - exists model, out'. split; [exact Hrun|].
    intros file_path contents Hin. now apply (Hno file_path contents).
Defined.

Section Run.
Variable w : world.
Variable write : string -> string -> option exn.
Variable a : namespace.
Hypothesis Hok :
  forall rel p, In (rel, p) (py_files w (directory a)) -> raises w p = false.

Let model : Dict.t file_structure :=
  Dict.assign (entries w (directory a) (exclude_imports a)) Dict.empty.

Let diagnostics : string :=
  String.concat ""
    (map (fun '(_, file_path) => diagnostic_of w file_path)
         (py_files w (directory a))).

(** X11. In [print] mode, when no file raises, the program prints the
    diagnostics of the files with syntax errors, the directory followed
    by [/], and the listing with the indent of four spaces and the two
    symbols of the command line; it writes no file. *)
Theorem main_prints_listing out :
  output a = "print" ->
  main w write a out
  = (Ok None,
     out ++ diagnostics ++ line (directory a ++ "/")
     ++ render_text (exclude_imports a) model "    " (func_symbol a)
          (class_symbol a)).
Proof.
  intros Hmode. unfold main. rewrite Hmode. cbn [String.eqb Ascii.eqb Bool.eqb].
  apply appends_bind with (a := model).
  - intros out0. now apply analyze_directory_no_raise.
  - apply appends_bind with (a := tt); [apply appends_print|].
    rewrite <- (StrFacts.append_nil_r (render_text _ _ _ _ _)).
    apply appends_bind with (a := tt); [apply print_structure_text|].
    apply appends_ret.
Qed.

(** X12. In [dot] mode, when no file raises, the program writes the text
    of [generate_dot] to [structure.dot] in the analysed directory and
    prints one line naming that file after the diagnostics; when the
    write fails its exception is raised and the line is not printed. *)
Theorem main_writes_dot_file out :
  output a = "dot" ->
  let dot_filename := os_path_join w (directory a) "structure.dot" in
  main w write a out
  = match write dot_filename (generate_dot model) with
    | None =>
        (Ok (Some (dot_filename, generate_dot model)),
         out ++ diagnostics ++ line ("Dot file created at " ++ dot_filename))
    | Some e => (Raise e, out ++ diagnostics)
    end.
Proof.
  intros Hmode dot_filename. unfold main. rewrite Hmode.
  cbn [String.eqb Ascii.eqb Bool.eqb]. fold dot_filename.
  unfold bind at 1.
  rewrite analyze_directory_no_raise by assumption. fold model diagnostics.
  destruct (write dot_filename (generate_dot model)) as [e|].
  - reflexivity.
  - unfold bind, print, ret. now rewrite StrFacts.append_assoc.
Qed.

End Run.

Lemma main_prints_listing_witness :
  main example_world write_ok excluding_args ""
  = (Ok None,
     line "Syntax error in proj/bad.py: invalid syntax (bad.py, line 1)"
     ++ line "proj/"
     ++ line "bad.py:" ++ line ""
     ++ line "nested.py:"
     ++ line ("    " ++ default_func_symbol ++ " f()")
     ++ line ("    " ++ default_func_symbol ++ " b()")
     ++ line ("    " ++ default_func_symbol ++ " a()")
     ++ line ("    " ++ default_class_symbol ++ " C")
     ++ line "      - a()" ++ line ""
     ++ line "pkg/mod.py:"
     ++ line ("    " ++ default_func_symbol ++ " f()")
     ++ line ("    " ++ default_func_symbol ++ " g()")
     ++ line ("    " ++ default_func_symbol ++ " m1()")
     ++ line ("    " ++ default_func_symbol ++ " m2()")
     ++ line ("    " ++ default_class_symbol ++ " K")
     ++ line "      - m1()" ++ line "      - m2()" ++ line "").
Proof.
  rewrite (@main_prints_listing example_world write_ok excluding_args).
  - reflexivity.
  - intros rel p Hin. simpl in Hin.
    destruct Hin as [[= _ <-]|[[= _ <-]|[[= _ <-]|[]]]]; reflexivity.
  - reflexivity.
Defined.

Lemma main_writes_dot_file_witness :
  exists dot_content,
    main example_world write_ok dot_args ""
    = (Ok (Some ("proj/structure.dot", dot_content)),
       line "Syntax error in proj/bad.py: invalid syntax (bad.py, line 1)"
       ++ line "Dot file created at proj/structure.dot").
Proof.
  eexists.
  rewrite (@main_writes_dot_file example_world write_ok dot_args).
  - reflexivity.
  - intros rel p Hin. simpl in Hin.
    destruct Hin as [[= _ <-]|[[= _ <-]|[[= _ <-]|[]]]]; reflexivity.
  - reflexivity.
Defined.



End ProgramMore.

(** ** Further properties of the graph renderer *)

Module GraphMore.
Import Ast Io Analyser View Shape Examples.
Import RenderFacts DotFacts.

Lemma edges_flat_map {A} (g : A -> list dot_stmt) (l : list A) :
  edges (flat_map g l) = flat_map (fun x => edges (g x)) l.
Proof.
  induction l as [|x l IH]; [reflexivity|].
  cbn [flat_map]. now rewrite edges_app, IH.
Qed.

Lemma edges_methods class_node methods :
  edges (flat_map (method_stmts class_node) methods)
  = map (fun method => (class_node, class_node ++ "_meth_" ++ method)) methods.
Proof.
  induction methods as [|m methods IH]; [reflexivity|].
  cbn [flat_map map method_stmts app edges]. now rewrite IH.
Qed.

Lemma edges_functions file_node funcs :
  edges (flat_map (function_stmts file_node) funcs)
  = map (fun func => (file_node, file_node ++ "_func_" ++ func)) funcs.
Proof.
  induction funcs as [|f funcs IH]; [reflexivity|].
  cbn [flat_map map function_stmts app edges]. now rewrite IH.
Qed.

Lemma edges_file entry : edges (file_stmts entry) = file_edges entry.
Proof.
  destruct entry as [file content]. unfold file_stmts, file_edges.
  cbn [edges]. rewrite edges_app, edges_functions. f_equal.
  rewrite edges_flat_map. apply flat_map_ext. intros [cls methods].
  cbn [class_stmts edges]. now rewrite edges_methods.
Qed.

Lemma node_names_model structure :
  node_names (dot_stmts structure) = flat_map file_node_names structure.
Proof.
  unfold dot_stmts. rewrite !node_names_app, node_names_flat_map.
  cbn [preamble node_names app]. rewrite app_nil_r.
  apply flat_map_ext. intros entry. apply node_names_file.
Qed.

Lemma edges_model structure :
  edges (dot_stmts structure) = flat_map file_edges structure.
Proof.
  unfold dot_stmts. rewrite !edges_app, edges_flat_map.
  cbn [preamble edges app]. rewrite app_nil_r.
  apply flat_map_ext. intros entry. apply edges_file.
Qed.







(** The tail of every edge of a file is the file's node or one of its
    class nodes, and the head is a node of the file. *)
Lemma file_edges_between_nodes entry tail head :
  In (tail, head) (file_edges entry) ->
  In tail (file_node_names entry) /\ In head (file_node_names entry).
Proof.
  destruct entry as [file content]. unfold file_edges, file_node_names.
  set (file_node := file_node_name file).
  intros Hin. apply in_app_or in Hin. destruct Hin as [Hin|Hin].
  - apply in_map_iff in Hin. destruct Hin as (func & [= <- <-] & Hfunc).
    split; [now left|]. right. apply in_or_app. left.
    apply in_map_iff. now exists func.
  - apply in_flat_map in Hin. destruct Hin as ([cls methods] & Hcls & Hin).
    destruct Hin as [[= <- <-]|Hin].
    + split; [now left|]. right. apply in_or_app. right.
      apply in_flat_map. exists (cls, methods). split; [assumption|now left].
    + apply in_map_iff in Hin. destruct Hin as (method & [= <- <-] & Hmethod).
      split; right; apply in_or_app; right; apply in_flat_map;
        exists (cls, methods); (split; [assumption|]).
      * now left.
      * right. apply in_map_iff. now exists method.
Qed.

(** X15. No edge of the graph dangles: both ends of every edge are nodes
    the graph declares. *)
Theorem edges_join_declared_nodes structure tail head :
  In (tail, head) (edges (dot_stmts structure)) ->
  In tail (node_names (dot_stmts structure))
  /\ In head (node_names (dot_stmts structure)).
Proof.
  rewrite edges_model, node_names_model. intros Hin.
  apply in_flat_map in Hin. destruct Hin as (entry & Hentry & Hin).
  apply file_edges_between_nodes in Hin. destruct Hin as [Htail Hhead].
  split; apply in_flat_map; now exists entry.
Qed.

Lemma edges_join_declared_nodes_witness :
  In "a_py" (node_names (dot_stmts
               [("a.py", {| imports := None; functions := ["f"];
                            classes := [("C", ["m"])] |})]))
  /\ In "a_py_func_f" (node_names (dot_stmts
               [("a.py", {| imports := None; functions := ["f"];
                            classes := [("C", ["m"])] |})])).
Proof.
  apply (@edges_join_declared_nodes
           [("a.py", {| imports := None; functions := ["f"];
                        classes := [("C", ["m"])] |})]
           "a_py" "a_py_func_f").
  simpl. now left.
Defined.

Lemma flat_map_map {A B C} (f : B -> list C) (g : A -> B) (l : list A) :
  flat_map f (map g l) = flat_map (fun x => f (g x)) l.
Proof.
  induction l as [|x l IH]; [reflexivity|]. cbn [map flat_map]. now rewrite IH.
Qed.

(** X16. The graph does not show imports: removing the key ['imports']
    from every file of a model leaves the text of [generate_dot] as it
    is. *)
Theorem graph_ignores_imports structure :
  generate_dot (map without_imports structure) = generate_dot structure.
Proof.
  unfold generate_dot. rewrite !generate_dot_lines_view. do 2 f_equal.
  unfold dot_stmts. do 2 f_equal. rewrite flat_map_map.
  apply flat_map_ext. now intros [file content].
Qed.

Lemma file_node_name_app a b :
  file_node_name (a ++ b) = file_node_name a ++ file_node_name b.
Proof.
  induction a as [|c a IH]; [reflexivity|].
  cbn [String.append]. rewrite !file_node_name_cons. cbn [String.append]. now rewrite IH.
Qed.

Lemma nodup_app_common {A} (l1 l2 : list A) x :
  In x l1 -> In x l2 -> ~ NoDup (l1 ++ l2).
Proof.
  induction l1 as [|y l1 IH]; [intros []|].
  intros [->|Hin] Hin2 Hnd; inversion Hnd as [|? ? Hnotin Hnd']; subst.
  - apply Hnotin. apply in_or_app. now right.
  - now apply IH.
Qed.

Lemma sanitize_idem c : sanitize (sanitize c) = sanitize c.
Proof.
  unfold sanitize. destruct (Ascii.eqb_spec c "."); [reflexivity|].
  destruct (Ascii.eqb_spec c "/"); [reflexivity|].
  cbn [orb]. destruct (Ascii.eqb_spec c "."); [contradiction|].
  now destruct (Ascii.eqb_spec c "/").
Qed.

Lemma file_node_name_idem file :
  file_node_name (file_node_name file) = file_node_name file.
Proof.
  induction file as [|c file IH]; [reflexivity|].
  rewrite !file_node_name_cons. now rewrite sanitize_idem, IH.
Qed.

(** X17. The name of a file node does not tell ['.'], ['/'] and ['_']
    apart: it is unchanged by a second replacement, and two different
    paths that differ in such a character, as a file [q] in the
    directory [p] and the file [p.q], get one node name, which the graph
    then declares twice. *)
Theorem file_node_names_collide p q content1 content2 :
  file_node_name (file_node_name (p ++ "/" ++ q)) = file_node_name (p ++ "/" ++ q)
  /\ p ++ "/" ++ q <> p ++ "." ++ q
  /\ file_node_name (p ++ "/" ++ q) = file_node_name (p ++ "." ++ q)
  /\ file_node_name (p ++ "/" ++ q) = file_node_name (p ++ "_" ++ q)
  /\ ~ NoDup (node_names
                (dot_stmts [(p ++ "/" ++ q, content1);
                            (p ++ "." ++ q, content2)])).
Proof.
  assert (Hsame : file_node_name (p ++ "/" ++ q) = file_node_name (p ++ "." ++ q))
    by now rewrite !file_node_name_app.
  split; [|split; [|split; [exact Hsame|split]]].
  - apply file_node_name_idem.
  - intros Heq. apply StrFacts.append_inv_l in Heq. discriminate Heq.
  - now rewrite !file_node_name_app.
  - rewrite node_names_model. cbn [flat_map]. rewrite app_nil_r.
    apply nodup_app_common with (x := file_node_name (p ++ "/" ++ q)).
    + now left.
    + rewrite Hsame. now left.
Qed.

End GraphMore.
